(** * BunBunBash: the whack-a-bunny game core

    Shallow embedding of the game logic of [src/unnamed/part_000]
    (global [gameState], class [Mole], [getDifficultySettings],
    class [WhackAMoleGame]) and, in [Module Wab], of the parts of
    [src/game/app/static/game-files/whackabunny.js] that differ from it.

    Modelling choices:
    - JavaScript numbers that hold integers ([score], [timeLeft],
      [difficultyLevel]) are [Z]; numbers that hold fractions
      ([animationProgress], [animationSpeed], timer delays, the values of
      [Math.random()]) are [Q].
    - Drawing, audio, the red flash overlay and the on-screen positions
      ([x], [y], [baseY], [radius]) are presentation only and are left out.
    - [setTimeout], [setInterval] and [requestAnimationFrame] register a
      callback in a pending list with a fresh id; [clearTimeout],
      [clearInterval] and [cancelAnimationFrame] remove it.  The
      environment may fire any pending callback at any time (no ordering is
      assumed).
    - [Math.random()] reads the next value of a random source carried in
      the world.
    - A method runs in a state monad with exceptions: a thrown [TypeError]
      aborts the rest of the handler but keeps the mutations already done,
      as JavaScript does. *)

From Stdlib Require Import ZArith QArith Qminmax List Bool String Ascii Lia Lqa.
Import ListNotations.

Open Scope Z_scope.

(** ** Data model *)

(** A difficulty profile, one entry of [difficultySettings]. *)
Record Profile := mkProfile {
  minShowTime : Q;
  maxShowTime : Q;
  minHideTime : Q;
  maxHideTime : Q;
  animationSpeed : Q
}.

(** The fields of [class Mole] that the game logic reads or writes. *)
Record Mole := mkMole {
  isVisible : bool;
  isHit : bool;
  isGoodMole : bool;
  visibilityTimer : option nat;
  animationProgress : Q;
  isAnimating : bool;
  isBashAnimating : bool;
  bashFrame : nat;
  bashTimer : option nat
}.

(** [new Mole(id, x, y)]. *)
Definition newMole : Mole :=
  {| isVisible := false; isHit := false; isGoodMole := true;
     visibilityTimer := None; animationProgress := 0%Q; isAnimating := false;
     isBashAnimating := false; bashFrame := 0; bashTimer := None |}.

(** The fields of the global [gameState] that the game logic uses. *)
Record GameState := mkGameState {
  running : bool;
  paused : bool;
  score : Z;
  timeLeft : Z;
  gameTimer : option nat;
  moles : list Mole;
  difficultyLevel : Z;
  gameEnded : bool
}.

(** The callbacks handed to [setTimeout], [setInterval] and
    [requestAnimationFrame]; the [nat] is the index of the mole the
    closure captured as [this]. *)
Inductive Callback :=
| CbHide (i : nat)       (* [setTimeout(() => this.hide(), showDuration)] in [show] *)
| CbShow (i : nat)       (* [setTimeout(() => this.show(), ...)] in [hide] and [start] *)
| CbHitHide (i : nat)    (* [setTimeout(() => this.hide(), 400)] in [hit] *)
| CbBash2 (i : nat)      (* first timeout of [startBashAnimation] *)
| CbBashEnd (i : nat)    (* second timeout of [startBashAnimation] *)
| CbClock                (* the [setInterval] of [start] *)
| CbFrame.               (* [requestAnimationFrame(() => this.gameLoop())] *)

Record Timer := mkTimer {
  tid : nat;
  tcb : Callback;
  tdelay : Q;
  trepeat : bool
}.

(** The whole program state: the global [gameState], the game object's
    [animationId], the pending callbacks, the next timer id and the random
    source. *)
Record World := mkWorld {
  gs : GameState;
  animationId : option nat;
  timers : list Timer;
  nextId : nat;
  rnd : nat -> Q;
  rndPos : nat
}.

Definition set_gs (g : GameState) (w : World) : World :=
  {| gs := g; animationId := animationId w; timers := timers w;
     nextId := nextId w; rnd := rnd w; rndPos := rndPos w |}.

Definition set_timers (ts : list Timer) (w : World) : World :=
  {| gs := gs w; animationId := animationId w; timers := ts;
     nextId := nextId w; rnd := rnd w; rndPos := rndPos w |}.

(** ** A state monad with exceptions *)

Definition M (A : Type) : Type := World -> World * option A.

Definition ret {A} (a : A) : M A := fun w => (w, Some a).

Definition bind {A B} (m : M A) (k : A -> M B) : M B :=
  fun w => match m w with
           | (w', Some a) => k a w'
           | (w', None) => (w', None)
           end.

Notation "x <- m ;; k" := (bind m (fun x => k))
  (at level 61, m at next level, right associativity).
Notation "m ;;; k" := (bind m (fun _ => k))
  (at level 61, right associativity).

(** [throw]: a [TypeError], e.g. reading a field of [undefined]. *)
Definition throw {A} : M A := fun w => (w, None).

Definition get : M World := fun w => (w, Some w).
Definition getGS : M GameState := fun w => (w, Some (gs w)).
Definition putGS (g : GameState) : M unit := fun w => (set_gs g w, Some tt).
Definition modifyGS (f : GameState -> GameState) : M unit :=
  fun w => (set_gs (f (gs w)) w, Some tt).

(** [Math.random()]. *)
Definition random : M Q :=
  fun w => ({| gs := gs w; animationId := animationId w; timers := timers w;
               nextId := nextId w; rnd := rnd w; rndPos := S (rndPos w) |},
            Some (rnd w (rndPos w))).

(** Registering a callback; the id is returned, as by [setTimeout]. *)
Definition schedule (cb : Callback) (d : Q) (rep : bool) : M nat :=
  fun w => ({| gs := gs w; animationId := animationId w;
               timers := mkTimer (nextId w) cb d rep :: timers w;
               nextId := S (nextId w); rnd := rnd w; rndPos := rndPos w |},
            Some (nextId w)).

Definition setTimeout (cb : Callback) (d : Q) : M nat := schedule cb d false.
Definition setInterval (cb : Callback) (d : Q) : M nat := schedule cb d true.
Definition requestAnimationFrame (cb : Callback) : M nat := schedule cb 0 false.

Definition remove_timer (id : nat) (ts : list Timer) : list Timer :=
  filter (fun t => negb (Nat.eqb (tid t) id)) ts.

(** [clearTimeout], [clearInterval] and [cancelAnimationFrame]. *)
Definition clearTimeout (id : nat) : M unit :=
  fun w => (set_timers (remove_timer id (timers w)) w, Some tt).

(** ** Small helpers on records and lists *)

Fixpoint set_nth {A} (n : nat) (x : A) (l : list A) : list A :=
  match l, n with
  | [], _ => []
  | _ :: t, O => x :: t
  | h :: t, S n' => h :: set_nth n' x t
  end.

Definition with_moles (ms : list Mole) (g : GameState) : GameState :=
  {| running := running g; paused := paused g; score := score g;
     timeLeft := timeLeft g; gameTimer := gameTimer g; moles := ms;
     difficultyLevel := difficultyLevel g; gameEnded := gameEnded g |}.

Definition with_difficultyLevel (l : Z) (g : GameState) : GameState :=
  {| running := running g; paused := paused g; score := score g;
     timeLeft := timeLeft g; gameTimer := gameTimer g; moles := moles g;
     difficultyLevel := l; gameEnded := gameEnded g |}.

Definition with_score (s : Z) (g : GameState) : GameState :=
  {| running := running g; paused := paused g; score := s;
     timeLeft := timeLeft g; gameTimer := gameTimer g; moles := moles g;
     difficultyLevel := difficultyLevel g; gameEnded := gameEnded g |}.

Definition with_timeLeft (t : Z) (g : GameState) : GameState :=
  {| running := running g; paused := paused g; score := score g;
     timeLeft := t; gameTimer := gameTimer g; moles := moles g;
     difficultyLevel := difficultyLevel g; gameEnded := gameEnded g |}.

Definition with_paused (b : bool) (g : GameState) : GameState :=
  {| running := running g; paused := b; score := score g;
     timeLeft := timeLeft g; gameTimer := gameTimer g; moles := moles g;
     difficultyLevel := difficultyLevel g; gameEnded := gameEnded g |}.

Definition with_gameTimer (t : option nat) (g : GameState) : GameState :=
  {| running := running g; paused := paused g; score := score g;
     timeLeft := timeLeft g; gameTimer := t; moles := moles g;
     difficultyLevel := difficultyLevel g; gameEnded := gameEnded g |}.

(** Reading [this] for the mole of index [i]. *)
Definition getMole (i : nat) : M (option Mole) :=
  fun w => (w, Some (nth_error (moles (gs w)) i)).

(** Writing the fields of [this]. *)
Definition putMole (i : nat) (m : Mole) : M unit :=
  modifyGS (fun g => with_moles (set_nth i m (moles g)) g).

(** ** Difficulty progression: [getDifficultySettings] *)

Definition difficultySettings : list Profile := [
  (* Level 0 (0-9s): Very slow start *)
  mkProfile 1000 2750 1750 4500 (25 # 1000);
  (* Level 1 (10-19s): Slow *)
  mkProfile 800 2500 1500 4300 (30 # 1000);
  (* Level 2 (20-29s): Medium-slow *)
  mkProfile 650 2300 1300 4000 (35 # 1000);
  (* Level 3 (30-39s): Medium *)
  mkProfile 550 2100 1100 3700 (40 # 1000);
  (* Level 4 (40-49s): Fast *)
  mkProfile 450 1900 900 3500 (45 # 1000);
  (* Level 5 (50-60s): Very fast *)
  mkProfile 350 1700 700 3300 (50 # 1000)
].

(** Array indexing [a[n]]: [undefined] ([None]) for a negative index or
    one past the end. *)
Definition js_index {A} (l : list A) (n : Z) : option A :=
  if n <? 0 then None else nth_error l (Z.to_nat n).

(** The level computed from the session clock:
    [Math.min(Math.floor((60 - timeLeft) / 10), 5)]; the operands are
    integers, so [Math.floor] of the quotient is [Z.div]. *)
Definition levelOf (timeLeft : Z) : Z :=
  let timeElapsed := 60 - timeLeft in
  let difficultyLevel := timeElapsed / 10 in
  Z.min difficultyLevel 5.

(** [getDifficultySettings()]: stores the level in
    [gameState.difficultyLevel] and returns the table entry
    ([undefined] out of range). *)
Definition getDifficultySettings : M (option Profile) :=
  g <- getGS ;;
  let l := levelOf (timeLeft g) in
  modifyGS (with_difficultyLevel l) ;;;
  ret (js_index difficultySettings l).

(** Reading a field of the returned profile: a [TypeError] on
    [undefined]. *)
Definition need {A} (o : option A) : M A :=
  match o with Some a => ret a | None => throw end.

(** The tier of the spec, as the code computes it for an elapsed time [e]:
    the [difficultyLevel] stored by [getDifficultySettings] when
    [timeLeft = 60 - e]. *)
Definition tierFor (w : World) (e : Z) : Z :=
  difficultyLevel (gs (fst (getDifficultySettings
    (set_gs (with_timeLeft (60 - e) (gs w)) w)))).

(** JavaScript's [x < y] on numbers. *)
Definition Qltb (x y : Q) : bool := negb (Qle_bool y x).

(** ** Field updates of a mole *)

Definition upd_mole (m : Mole) (vis hit good : bool) (vt : option nat)
  (p : Q) (anim bashAnim : bool) (bf : nat) (bt : option nat) : Mole :=
  {| isVisible := vis; isHit := hit; isGoodMole := good; visibilityTimer := vt;
     animationProgress := p; isAnimating := anim; isBashAnimating := bashAnim;
     bashFrame := bf; bashTimer := bt |}.

Definition set_isVisible (b : bool) (m : Mole) : Mole :=
  upd_mole m b (isHit m) (isGoodMole m) (visibilityTimer m) (animationProgress m)
    (isAnimating m) (isBashAnimating m) (bashFrame m) (bashTimer m).
Definition set_isHit (b : bool) (m : Mole) : Mole :=
  upd_mole m (isVisible m) b (isGoodMole m) (visibilityTimer m) (animationProgress m)
    (isAnimating m) (isBashAnimating m) (bashFrame m) (bashTimer m).
Definition set_isGoodMole (b : bool) (m : Mole) : Mole :=
  upd_mole m (isVisible m) (isHit m) b (visibilityTimer m) (animationProgress m)
    (isAnimating m) (isBashAnimating m) (bashFrame m) (bashTimer m).
Definition set_visibilityTimer (t : option nat) (m : Mole) : Mole :=
  upd_mole m (isVisible m) (isHit m) (isGoodMole m) t (animationProgress m)
    (isAnimating m) (isBashAnimating m) (bashFrame m) (bashTimer m).
Definition set_animationProgress (p : Q) (m : Mole) : Mole :=
  upd_mole m (isVisible m) (isHit m) (isGoodMole m) (visibilityTimer m) p
    (isAnimating m) (isBashAnimating m) (bashFrame m) (bashTimer m).
Definition set_isAnimating (b : bool) (m : Mole) : Mole :=
  upd_mole m (isVisible m) (isHit m) (isGoodMole m) (visibilityTimer m)
    (animationProgress m) b (isBashAnimating m) (bashFrame m) (bashTimer m).
Definition set_bash (b : bool) (f : nat) (t : option nat) (m : Mole) : Mole :=
  upd_mole m (isVisible m) (isHit m) (isGoodMole m) (visibilityTimer m)
    (animationProgress m) (isAnimating m) b f t.

(** Running [k] on [this], the mole of index [i]; every callback closes
    over one of the existing moles, so the [None] branch does not arise
    from the game's own calls. *)
Definition onMole {A} (i : nat) (dflt : A) (k : Mole -> M A) : M A :=
  o <- getMole i ;;
  match o with Some m => k m | None => ret dflt end.

(** [if (t) { clearTimeout(t); }] for a stored handle (handles are
    positive, hence truthy). *)
Definition clearHandle (t : option nat) : M unit :=
  match t with Some id => clearTimeout id | None => ret tt end.

(** ** [class Mole] *)

(** [show()] *)
Definition show (i : nat) : M unit :=
  g <- getGS ;;
  if negb (running g) || paused g then ret tt else
  onMole i tt (fun m =>
    (* Don't show if already visible or animating *)
    if isVisible m || isAnimating m then ret tt else
    let m1 := set_animationProgress 0 (set_isAnimating true
                (set_isHit false (set_isVisible true m))) in
    putMole i m1 ;;;
    randomValue <- random ;;
    let m2 := set_isGoodMole (Qltb randomValue (3 # 4)) m1 in
    putMole i m2 ;;;
    d <- getDifficultySettings ;;
    difficulty <- need d ;;
    r <- random ;;
    let baseShowDuration :=
      (r * (maxShowTime difficulty - minShowTime difficulty)
       + minShowTime difficulty)%Q in
    let animationBuffer := 500%Q in
    let showDuration := Qmax baseShowDuration animationBuffer in
    id <- setTimeout (CbHide i) showDuration ;;
    putMole i (set_visibilityTimer (Some id) m2)).

(** [hide()] *)
Definition hide (i : nat) : M unit :=
  onMole i tt (fun m =>
    if negb (isVisible m) then ret tt else
    let m1 := set_isAnimating true (set_isHit false (set_isVisible false m)) in
    putMole i m1 ;;;
    clearHandle (visibilityTimer m1) ;;;
    putMole i (set_visibilityTimer None m1) ;;;
    g <- getGS ;;
    if running g && negb (paused g) then
      d <- getDifficultySettings ;;
      difficulty <- need d ;;
      r <- random ;;
      let baseHideDuration :=
        (r * (maxHideTime difficulty - minHideTime difficulty)
         + minHideTime difficulty)%Q in
      let animationBuffer := 500%Q in
      let hideDuration := Qmax baseHideDuration animationBuffer in
      setTimeout (CbShow i) hideDuration ;;; ret tt
    else ret tt).

(** [update()] (the on-screen [y] is left out). *)
Definition update (i : nat) : M unit :=
  onMole i tt (fun m =>
    if isAnimating m then
      d <- getDifficultySettings ;;
      difficulty <- need d ;;
      if isVisible m then
        let a := (animationProgress m + animationSpeed difficulty)%Q in
        if Qle_bool 1 a then putMole i (set_isAnimating false (set_animationProgress 1 m))
        else putMole i (set_animationProgress a m)
      else
        let a := (animationProgress m - animationSpeed difficulty)%Q in
        if Qle_bool a 0 then putMole i (set_isAnimating false (set_animationProgress 0 m))
        else putMole i (set_animationProgress a m)
    else ret tt).

(** [startBashAnimation()] *)
Definition startBashAnimation (i : nat) : M unit :=
  onMole i tt (fun m =>
    putMole i (set_bash true 1 (bashTimer m) m) ;;;
    id <- setTimeout (CbBash2 i) 100 ;;
    putMole i (set_bash true 1 (Some id) m)).

(** The two callbacks of [startBashAnimation]. *)
Definition bashFrame2 (i : nat) : M unit :=
  onMole i tt (fun m =>
    putMole i (set_bash (isBashAnimating m) 2 (bashTimer m) m) ;;;
    id <- setTimeout (CbBashEnd i) 350 ;;
    putMole i (set_bash (isBashAnimating m) 2 (Some id) m)).

Definition bashEnd (i : nat) : M unit :=
  onMole i tt (fun m => putMole i (set_bash false 0 None m)).

(** [hit()] (the red flash is presentation only). *)
Definition hit (i : nat) : M bool :=
  onMole i false (fun m =>
    if isVisible m && negb (isHit m) then
      putMole i (set_isHit true m) ;;;
      startBashAnimation i ;;;
      (if isGoodMole m then modifyGS (fun g => with_score (score g + 10) g)
       else modifyGS (fun g => with_score (score g - 20) g)) ;;;
      setTimeout (CbHitHide i) 400 ;;;
      ret true
    else ret false).

(** ** [class WhackAMoleGame] *)

(** [this.moles.forEach(...)], over the indices of the moles. *)
Fixpoint loop_from (i n : nat) (f : nat -> M unit) : M unit :=
  match n with
  | O => ret tt
  | S n' => f i ;;; loop_from (S i) n' f
  end.

Definition forEachMole (f : nat -> M unit) : M unit :=
  g <- getGS ;; loop_from 0 (List.length (moles g)) f.

Definition setAnimationId (a : option nat) : M unit :=
  fun w => ({| gs := gs w; animationId := a; timers := timers w;
               nextId := nextId w; rnd := rnd w; rndPos := rndPos w |}, Some tt).

(** [if (gameState.gameTimer) { clearInterval(...); gameState.gameTimer = null; }] *)
Definition clearGameTimer : M unit :=
  g <- getGS ;;
  match gameTimer g with
  | Some id => clearTimeout id ;;; modifyGS (with_gameTimer None)
  | None => ret tt
  end.

(** The body shared by the [this.moles.forEach] loops of [start()],
    [reset()] and [gameOver()]: clear the stored [visibilityTimer] and
    [bashTimer] and write the fields given by [F]. *)
Definition clearMole (F : Mole -> Mole) (i : nat) : M unit :=
  onMole i tt (fun m =>
    clearHandle (visibilityTimer m) ;;;
    clearHandle (bashTimer m) ;;;
    putMole i (F m)).

(** [gameLoop()] (drawing left out). *)
Definition gameLoop : M unit :=
  forEachMole update ;;;
  g <- getGS ;;
  if running g then
    id <- requestAnimationFrame CbFrame ;; setAnimationId (Some id)
  else ret tt.

(** [gameOver()] *)
Definition gameOver : M unit :=
  modifyGS (fun g => mkGameState false (paused g) (score g) (timeLeft g)
                       (gameTimer g) (moles g) (difficultyLevel g) true) ;;;
  clearGameTimer ;;;
  forEachMole (clearMole (fun m => set_bash false 0 None
                 (set_visibilityTimer None (set_isVisible false m)))).

(** The callback of the [setInterval] of [start()]. *)
Definition clockTick : M unit :=
  g <- getGS ;;
  if negb (paused g) then
    modifyGS (fun g => with_timeLeft (timeLeft g - 1) g) ;;;
    g' <- getGS ;;
    if timeLeft g' <=? 0 then gameOver else ret tt
  else ret tt.

(** [start()] (background music left out). *)
Definition start : M unit :=
  g <- getGS ;;
  (* Prevent starting if game is already running and not paused *)
  if running g && negb (paused g) then ret tt else
  clearGameTimer ;;;
  forEachMole (clearMole (fun m =>
    upd_mole m false false (isGoodMole m) None 0 false false 0 None)) ;;;
  modifyGS (fun g => mkGameState true false 0 60 (gameTimer g) (moles g) 0 false) ;;;
  getDifficultySettings ;;;
  id <- setInterval CbClock 1000 ;;
  modifyGS (with_gameTimer (Some id)) ;;;
  forEachMole (fun i =>
    randomDelay <- random ;;
    setTimeout (CbShow i) (randomDelay * 3000) ;;; ret tt) ;;;
  gameLoop.

(** [pause()] *)
Definition pause : M unit :=
  g <- getGS ;;
  if negb (running g) then start
  else modifyGS (fun g => with_paused (negb (paused g)) g).

(** [reset()] *)
Definition reset : M unit :=
  modifyGS (fun g => mkGameState false false 0 60 (gameTimer g) (moles g)
                       (difficultyLevel g) false) ;;;
  clearGameTimer ;;;
  forEachMole (clearMole (fun m => set_bash false 0 None
                 (set_visibilityTimer None (set_isHit false (set_isVisible false m))))) ;;;
  w <- get ;;
  clearHandle (animationId w).

(** [key.toLowerCase()] on ASCII letters. *)
Definition lower_ascii (c : ascii) : ascii :=
  let n := nat_of_ascii c in
  if (65 <=? n)%nat && (n <=? 90)%nat then ascii_of_nat (n + 32) else c.

Fixpoint toLowerCase (s : string) : string :=
  match s with
  | EmptyString => EmptyString
  | String c s' => String (lower_ascii c) (toLowerCase s')
  end.

(** The object [{ 'a': 0, 'b': 1, 'c': 2 }]; other keys read
    [undefined]. *)
Definition keyToIndex (k : string) : option nat :=
  if String.eqb k "a" then Some 0%nat
  else if String.eqb k "b" then Some 1%nat
  else if String.eqb k "c" then Some 2%nat
  else None.

(** [handleKeyPress(key)]; the result is what [mole.hit()] returned, or
    [false] when it was not called: the strike's [Hit]/[Miss]. *)
Definition handleKeyPress (key : string) : M bool :=
  g <- getGS ;;
  if negb (running g) || paused g then ret false else
  match keyToIndex (toLowerCase key) with
  | None => ret false
  | Some i =>
      onMole i false (fun m =>
        (* Check if there's a bunny visible in this slot *)
        if isVisible m && Qltb 0 (animationProgress m) then hit i
        else ret false)
  end.

(** ** The event loop *)

Definition runCallback (cb : Callback) : M unit :=
  match cb with
  | CbHide i | CbHitHide i => hide i
  | CbShow i => show i
  | CbBash2 i => bashFrame2 i
  | CbBashEnd i => bashEnd i
  | CbClock => clockTick
  | CbFrame => gameLoop
  end.

Fixpoint find_timer (id : nat) (ts : list Timer) : option Timer :=
  match ts with
  | [] => None
  | t :: ts' => if Nat.eqb (tid t) id then Some t else find_timer id ts'
  end.

(** The environment fires the pending callback [id]: a one-shot timer is
    removed first, an interval stays registered. *)
Definition fire (id : nat) : M unit :=
  fun w =>
    match find_timer id (timers w) with
    | None => (w, Some tt)
    | Some t =>
        let w' := if trepeat t then w else set_timers (remove_timer id (timers w)) w in
        runCallback (tcb t) w'
    end.

(** The inputs of the core: the buttons, the resolved key presses and the
    firing of pending callbacks. *)
Inductive Event :=
| EvStart
| EvPause
| EvReset
| EvKey (k : string)
| EvFire (id : nat).

Definition handler (e : Event) : M unit :=
  match e with
  | EvStart => start
  | EvPause => pause
  | EvReset => reset
  | EvKey k => handleKeyPress k ;;; ret tt
  | EvFire id => fire id
  end.

(** A thrown exception ends the handler; the mutations done so far stay. *)
Definition step (w : World) (e : Event) : World := fst (handler e w).

Definition run (w : World) (es : list Event) : World := fold_left step es w.

(** The state after [DOMContentLoaded]: three moles, nothing scheduled;
    browser timer ids are positive. *)
Definition init (r : nat -> Q) : World :=
  {| gs := mkGameState false false 0 60 None [newMole; newMole; newMole] 0 false;
     animationId := None; timers := []; nextId := 1; rnd := r; rndPos := 0 |}.

(** Firing the session clock once, if it is registered. *)
Definition tickClock (w : World) : World :=
  match gameTimer (gs w) with
  | Some id => step w (EvFire id)
  | None => w
  end.

(** ** The variant [src/game/app/static/game-files/whackabunny.js]

    Its [Mole.hit], [Mole.update], [getDifficultySettings] (apart from the
    numbers of the table), [handleKeyPress] (apart from the [isVisible]
    pre-check) and the clock callback are those above; the pieces below
    differ.  Its [gameState] has no [gameEnded] field; the model leaves
    that field untouched. *)
Module Wab.

Definition difficultySettings : list Profile := [
  (* Level 0 (0-9s): Very slow start *)
  mkProfile 800 2500 1500 4000 (2 # 100);
  (* Level 1 (10-19s): Slow *)
  mkProfile 600 2200 1200 3800 (25 # 1000);
  (* Level 2 (20-29s): Medium-slow *)
  mkProfile 500 2000 1000 3500 (3 # 100);
  (* Level 3 (30-39s): Medium *)
  mkProfile 400 1800 800 3200 (35 # 1000);
  (* Level 4 (40-49s): Fast *)
  mkProfile 300 1600 600 3000 (4 # 100);
  (* Level 5 (50-60s): Very fast *)
  mkProfile 200 1400 400 2800 (45 # 1000)
].

Definition getDifficultySettings : M (option Profile) :=
  g <- getGS ;;
  let l := levelOf (timeLeft g) in
  modifyGS (with_difficultyLevel l) ;;;
  ret (js_index difficultySettings l).

(** [show()]: no guard against a mole already in flight, no floor. *)
Definition show (i : nat) : M unit :=
  g <- getGS ;;
  if negb (running g) || paused g then ret tt else
  onMole i tt (fun m =>
    let m1 := set_animationProgress 0 (set_isAnimating true
                (set_isHit false (set_isVisible true m))) in
    putMole i m1 ;;;
    randomValue <- random ;;
    let m2 := set_isGoodMole (Qltb randomValue (3 # 4)) m1 in
    putMole i m2 ;;;
    d <- getDifficultySettings ;;
    difficulty <- need d ;;
    r <- random ;;
    let showDuration :=
      (r * (maxShowTime difficulty - minShowTime difficulty)
       + minShowTime difficulty)%Q in
    id <- setTimeout (CbHide i) showDuration ;;
    putMole i (set_visibilityTimer (Some id) m2)).

(** [update()], reading this variant's table. *)
Definition update (i : nat) : M unit :=
  onMole i tt (fun m =>
    if isAnimating m then
      d <- getDifficultySettings ;;
      difficulty <- need d ;;
      if isVisible m then
        let a := (animationProgress m + animationSpeed difficulty)%Q in
        if Qle_bool 1 a then putMole i (set_isAnimating false (set_animationProgress 1 m))
        else putMole i (set_animationProgress a m)
      else
        let a := (animationProgress m - animationSpeed difficulty)%Q in
        if Qle_bool a 0 then putMole i (set_isAnimating false (set_animationProgress 0 m))
        else putMole i (set_animationProgress a m)
    else ret tt).

Definition gameLoop : M unit :=
  forEachMole update ;;;
  g <- getGS ;;
  if running g then
    id <- requestAnimationFrame CbFrame ;; setAnimationId (Some id)
  else ret tt.

(** [start()] *)
Definition start : M unit :=
  g <- getGS ;;
  if running g && negb (paused g) then ret tt else
  clearGameTimer ;;;
  forEachMole (clearMole (fun m =>
    upd_mole m false false (isGoodMole m) None 0 false false 0 None)) ;;;
  modifyGS (fun g => mkGameState true false 0 60 (gameTimer g) (moles g) 0
                       (gameEnded g)) ;;;
  id <- setInterval CbClock 1000 ;;
  modifyGS (with_gameTimer (Some id)) ;;;
  forEachMole (fun i =>
    randomDelay <- random ;;
    setTimeout (CbShow i) (randomDelay * 3000) ;;; ret tt) ;;;
  gameLoop.

(** [pause()]: a plain toggle. *)
Definition pause : M unit :=
  modifyGS (fun g => with_paused (negb (paused g)) g).

End Wab.

(** ** Properties used in the statements *)

(** [q] is strictly harder than [p]: every duration bound shorter, the
    animation faster. *)
Definition harder (p q : Profile) : Prop :=
  (animationSpeed p < animationSpeed q /\
   maxShowTime q < maxShowTime p /\ minShowTime q < minShowTime p /\
   maxHideTime q < maxHideTime p /\ minHideTime q < minHideTime p)%Q.

Definition tightens (tbl : list Profile) (t1 t2 : Z) : Prop :=
  exists p1 p2, js_index tbl t1 = Some p1 /\ js_index tbl t2 = Some p2 /\
                harder p1 p2.

Definition mole_ok (m : Mole) : Prop := (0 <= animationProgress m <= 1)%Q.

(** Every mole's [animationProgress] lies in [[0,1]]. *)
Definition progress_ok (w : World) : Prop := Forall mole_ok (moles (gs w)).

(** [m] keeps the invariant [I], also when it throws. *)
Definition pres {A} (I : World -> Prop) (m : M A) : Prop :=
  forall w, I w -> I (fst (m w)).

(** The strike on [key] targets no mole, a hidden one, or one already
    struck. *)
Definition strike_misses (w : World) (key : string) : Prop :=
  match keyToIndex (toLowerCase key) with
  | None => True
  | Some i =>
      match nth_error (moles (gs w)) i with
      | None => True
      | Some m => isVisible m = false \/ isHit m = true
      end
  end.

Definition remove_opt (t : option nat) (ts : list Timer) : list Timer :=
  match t with Some id => remove_timer id ts | None => ts end.

(** The pending list once the stored handles of [ms] are cleared. *)
Fixpoint clear_handles (ms : list Mole) (ts : list Timer) : list Timer :=
  match ms with
  | [] => ts
  | m :: ms' => clear_handles ms' (remove_opt (bashTimer m)
                                     (remove_opt (visibilityTimer m) ts))
  end.

(** The moles as [reset()] leaves them. *)
Definition reset_mole (m : Mole) : Mole :=
  set_bash false 0 None (set_visibilityTimer None (set_isHit false (set_isVisible false m))).

Definition opt_list (t : option nat) : list nat :=
  match t with Some x => [x] | None => [] end.

(** The handles the game keeps: the animation frame, the session clock and,
    per mole, the visibility and bash timers. *)
Definition stored_handles (w : World) : list nat :=
  opt_list (animationId w) ++ opt_list (gameTimer (gs w)) ++
  flat_map (fun m => opt_list (visibilityTimer m) ++ opt_list (bashTimer m))
    (moles (gs w)).

(** The session clock is registered as [id] and the session runs, not
    paused, with [n] seconds left. *)
Definition clock_on (id : nat) (n : Z) (w : World) : Prop :=
  running (gs w) = true /\ paused (gs w) = false /\ timeLeft (gs w) = n /\
  gameTimer (gs w) = Some id /\
  find_timer id (timers w) = Some (mkTimer id CbClock 1000 true) /\
  (id < nextId w)%nat.

Definition speed_ok (d : option Profile) : Prop :=
  forall p, d = Some p -> (0 <= animationSpeed p <= 1)%Q.

(** The session ended on its own: stopped, marked ended, clock at [0]
    and no longer registered. *)
Definition end_state (w : World) : Prop :=
  running (gs w) = false /\ gameEnded (gs w) = true /\ timeLeft (gs w) = 0 /\
  gameTimer (gs w) = None.

(** A concrete random source. *)
Definition rnd0 : nat -> Q := fun _ => 0%Q.

(** ** Presentation and set-up code, as pure functions *)

(** [animateFlash()] inside [triggerRedFlash()], run [elapsed] ms
    ([Date.now() - startTime]) after the strike: [Some o] sets
    [redFlashOpacity] to [o] and requests the next frame, [None] is the
    branch that ends the flash. *)
Definition animateFlash (elapsed : Z) : option Q :=
  let fadeInDuration := 100 in
  let fadeOutDuration := 700 in
  let totalDuration := fadeInDuration + fadeOutDuration in
  if elapsed <? fadeInDuration then
    Some (inject_Z elapsed / inject_Z fadeInDuration * (1 # 2))%Q
  else if elapsed <? totalDuration then
    let fadeOutProgress :=
      (inject_Z (elapsed - fadeInDuration) / inject_Z fadeOutDuration)%Q in
    Some ((1 # 2) * (1 - fadeOutProgress))%Q
  else None.

(** [updateMusicSpeed()]: the [playbackRate] it sets, [None] when it
    returns early (no music element, or the session not running). *)
Definition updateMusicSpeed (hasMusic : bool) (g : GameState) : option Q :=
  if negb hasMusic || negb (running g) then None else
  let timeElapsed := 60 - timeLeft g in
  Some ((1 # 2) + inject_Z timeElapsed / 60 * 1)%Q.

(** The state of the interval of [fadeOutMusic()]: [currentStep], the
    music's [volume], whether it still plays, whether the interval is still
    registered. *)
Record Fade := mkFade {
  currentStep : nat;
  volume : Q;
  playing : bool;
  fadeActive : bool
}.

Definition fadeSteps : nat := 20.

(** One run of the interval's callback; [volumeStep] is fixed when the
    interval is created. A cleared interval no longer fires. *)
Definition fadeTick (volumeStep : Q) (f : Fade) : Fade :=
  if negb (fadeActive f) then f else
  let cs := S (currentStep f) in
  let v := Qmax 0 (volume f - volumeStep) in
  if (fadeSteps <=? cs)%nat || Qle_bool v 0 then
    (* pause(), volume reset for the next game, clearInterval *)
    mkFade cs (3 # 10) false false
  else mkFade cs v (playing f) true.

(** [fadeOutMusic()] on music playing at volume [v]: the interval period,
    the [volumeStep] and the initial state. *)
Definition fadeOutMusic (v : Q) : Q * Q * Fade :=
  let fadeDuration := 3000%Q in
  let stepDuration := (fadeDuration / inject_Z (Z.of_nat fadeSteps))%Q in
  let volumeStep := (v / inject_Z (Z.of_nat fadeSteps))%Q in
  (stepDuration, volumeStep, mkFade 0 v true true).

(** The [x] of the three holes for a canvas of logical width
    [logicalWidth] (constructor and [resize()]). *)
Definition holeXs (logicalWidth : Q) : list Q :=
  let holeSpacing := (logicalWidth / 8)%Q in
  [holeSpacing * (186 # 100); holeSpacing * (404 # 100); holeSpacing * (622 # 100)]%Q.

(** The logical size chosen by the constructor from the container's
    bounding box, with its fallback. *)
Definition initialSize (rectWidth rectHeight : Q) : Q * Q :=
  (if Qltb 0 rectWidth then rectWidth else 800%Q,
   if Qltb 0 rectHeight then rectHeight else 400%Q).

(** [resize()]: either it retries in 50 ms, or it sets the logical size,
    the holes' [x] and their common [y] and [baseY]. *)
Inductive Resized :=
| RetryIn (ms : Q)
| NewLayout (logicalWidth logicalHeight : Q) (xs : list Q) (y : Q).

Definition resize (rectWidth rectHeight : Q) : Resized :=
  if Qle_bool rectWidth 0 || Qle_bool rectHeight 0 then RetryIn 50
  else NewLayout rectWidth rectHeight (holeXs rectWidth) (rectHeight - 50).

(** [checkAllLoaded()] of [loadImages()]: the counter and the [loading]
    flags (the four objects' flags are set together). *)
Record Loader := mkLoader { loadedCount : nat; imagesLoading : bool }.

Definition totalImages : nat := 8.

Definition checkAllLoaded (l : Loader) : Loader :=
  let c := S (loadedCount l) in
  if Nat.eqb c totalImages then mkLoader c false else mkLoader c (imagesLoading l).

Definition loader0 : Loader := mkLoader 0 true.

(** Which screen [draw()] paints. *)
Inductive Screen := EndScreen | PlayField.

Definition drawScreen (g : GameState) : Screen :=
  if negb (running g) && gameEnded g then EndScreen else PlayField.

(** The [keydown] listener installed on [DOMContentLoaded]. *)
Definition keydown (k : string) : M unit :=
  let key := toLowerCase k in
  if existsb (String.eqb key) ["a"; "b"; "c"]%string then
    handleKeyPress key ;;; ret tt
  else ret tt.

(** [n] animation frames: [gameLoop()] run [n] times in a row. *)
Definition frames (n : nat) (w : World) : World :=
  Nat.iter n (fun w => fst (gameLoop w)) w.

(** The mole [update()] leaves behind, for the [animationSpeed] [s] it
    read from the table. *)
Definition advance (s : Q) (m : Mole) : Mole :=
  if isAnimating m then
    if isVisible m then
      let a := (animationProgress m + s)%Q in
      if Qle_bool 1 a then set_isAnimating false (set_animationProgress 1 m)
      else set_animationProgress a m
    else
      let a := (animationProgress m - s)%Q in
      if Qle_bool a 0 then set_isAnimating false (set_animationProgress 0 m)
      else set_animationProgress a m
  else m.

(** The session clock never exceeds its starting value. *)
Definition clock_ok (w : World) : Prop := timeLeft (gs w) <= 60.

(** The bounds the session fields keep: the clock at most [60], the
    level in [0..5] (the range the declaration of [gameState] documents)
    and a score made of [+10] and [-20] steps. *)
Definition gs_ok (g : GameState) : Prop :=
  timeLeft g <= 60 /\ 0 <= difficultyLevel g <= 5 /\ score g mod 10 = 0.

(** [m] keeps [I] and, from a state satisfying [I], raises no exception. *)
Definition safe {A} (I : World -> Prop) (m : M A) : Prop :=
  forall w, I w -> I (fst (m w)) /\ snd (m w) <> None.

(** Mole 0 as the first [show()] after [start()] leaves it, for the
    random source [rnd0]. *)
Definition popped_mole0 : Mole :=
  {| isVisible := true; isHit := false; isGoodMole := true;
     visibilityTimer := Some 6%nat; animationProgress := 0; isAnimating := true;
     isBashAnimating := false; bashFrame := 0; bashTimer := None |}.

(** A world where mole 0 is a fully popped bad bunny. *)
Definition w_bad : World :=
  set_gs (with_moles [upd_mole newMole true false false None 1 false false 0 None;
                      newMole; newMole]
            (mkGameState true false 0 60 None [] 0 false)) (init rnd0).

(** The part of the world the session clock depends on. *)
Definition clock_view (w : World) :=
  (running (gs w), paused (gs w), timeLeft (gs w), gameTimer (gs w), timers w, nextId w).

(** ** Difficulty *)

Lemma harder_trans : forall p q r, harder p q -> harder q r -> harder p r.
Proof. unfold harder; intros p q r H1 H2; lra. Qed.

(** C1: for tiers [0 <= t1 < t2 <= 5] the profile of [t2] is strictly
    harder than that of [t1] (every duration bound strictly shorter, the
    animation speed strictly higher), in the tables of both variants;
    in particular [speed t1 <= speed t2] and [maxShowTime t1 >= maxShowTime t2]. *)
Theorem difficulty_monotonic : forall t1 t2, 0 <= t1 -> t1 < t2 -> t2 <= 5 ->
  tightens difficultySettings t1 t2 /\ tightens Wab.difficultySettings t1 t2.
Proof.
  intros t1 t2 H1 H2 H3.
  assert (t1 = 0 \/ t1 = 1 \/ t1 = 2 \/ t1 = 3 \/ t1 = 4) as Ht1 by lia.
  assert (t2 = 1 \/ t2 = 2 \/ t2 = 3 \/ t2 = 4 \/ t2 = 5) as Ht2 by lia.
  destruct Ht1 as [-> | [-> | [-> | [-> | ->]]]];
  destruct Ht2 as [-> | [-> | [-> | [-> | ->]]]];
  try lia;
  split; do 2 eexists; (split; [reflexivity | split; [reflexivity |]]);
  unfold harder; simpl; lra.
Qed.

Lemma difficulty_monotonic_witness :
  (0 <= 1 /\ 1 < 4 /\ 4 <= 5) /\
  (tightens difficultySettings 1 4 /\ tightens Wab.difficultySettings 1 4).
Proof.
  split; [lia |].
  apply (difficulty_monotonic 1 4); lia.
Defined.

(** C2: for an elapsed time [e >= 0] (the code's [60 - timeLeft]), the
    level [getDifficultySettings] stores in [gameState.difficultyLevel] is
    [min(floor(e/10), 5)], lies in [[0,5]] (so the table lookup succeeds),
    and does not decrease as [e] grows. *)
Theorem tier_for_elapsed : forall w e1 e2, 0 <= e1 -> e1 <= e2 ->
  difficultyLevel (gs (fst (getDifficultySettings w)))
    = Z.min ((60 - timeLeft (gs w)) / 10) 5 /\
  tierFor w e1 = Z.min (e1 / 10) 5 /\
  0 <= tierFor w e1 <= 5 /\
  js_index difficultySettings (tierFor w e1) <> None /\
  tierFor w e1 <= tierFor w e2.
Proof.
  intros w e1 e2 H1 H2.
  assert (Hl : forall e, tierFor w e = Z.min (e / 10) 5).
  { intro e. unfold tierFor, getDifficultySettings, levelOf.
    cbn -[Z.sub Z.div Z.min].
    f_equal. f_equal. lia. }
  rewrite !Hl.
  assert (0 <= e1 / 10) by (apply Z.div_pos; lia).
  assert (e1 / 10 <= e2 / 10) by (apply Z.div_le_mono; lia).
  repeat split; try lia.
  - unfold js_index.
    destruct (Z.min_spec (e1 / 10) 5) as [[Hlt ->] | [Hge ->]].
    + replace (e1 / 10 <? 0) with false by (symmetry; apply Z.ltb_ge; lia).
      assert (Z.to_nat (e1 / 10) < 5)%nat as Hn by lia.
      revert Hn; destruct (Z.to_nat (e1 / 10)) as [|[|[|[|[|]]]]]; simpl;
        intros; try discriminate; lia.
    + simpl. discriminate.
Qed.

Lemma tier_for_elapsed_witness :
  (0 <= 10 /\ 10 <= 65) /\
  (difficultyLevel (gs (fst (getDifficultySettings (init rnd0))))
     = Z.min ((60 - timeLeft (gs (init rnd0))) / 10) 5 /\
   tierFor (init rnd0) 10 = Z.min (10 / 10) 5 /\
   0 <= tierFor (init rnd0) 10 <= 5 /\
   js_index difficultySettings (tierFor (init rnd0) 10) <> None /\
   tierFor (init rnd0) 10 <= tierFor (init rnd0) 65).
Proof.
  split; [lia |].
  apply (tier_for_elapsed (init rnd0) 10 65); lia.
Defined.

Example tierFor_values :
  map (tierFor (init rnd0)) [0; 9; 10; 65] = [0; 0; 1; 5].
Proof. reflexivity. Qed.

(** ** Lists updated by index *)

Lemma nth_error_set_nth_same {A} : forall (l : list A) i x y,
  nth_error l i = Some x -> nth_error (set_nth i y l) i = Some y.
Proof.
  induction l as [|h t IH]; intros [|i] x y H; simpl in *; try discriminate; auto.
  eapply IH; eauto.
Qed.

Lemma nth_error_set_nth_other {A} : forall (l : list A) i j y,
  i <> j -> nth_error (set_nth i y l) j = nth_error l j.
Proof.
  induction l as [|h t IH]; intros [|i] [|j] y H; simpl; auto; try congruence.
Qed.

Lemma length_set_nth {A} : forall (l : list A) i y,
  List.length (set_nth i y l) = List.length l.
Proof. induction l as [|h t IH]; intros [|i] y; simpl; auto. Qed.

Lemma Forall_set_nth {A} (P : A -> Prop) : forall l i y,
  Forall P l -> P y -> Forall P (set_nth i y l).
Proof.
  induction l as [|h t IH]; intros [|i] y H Hy; simpl; auto;
  inversion H; subst; constructor; auto.
Qed.

Lemma nth_error_moles_putMole : forall w i m x,
  nth_error (moles (gs w)) i = Some x ->
  nth_error (moles (gs (fst (putMole i m w)))) i = Some m.
Proof.
  intros w i m x H. unfold putMole, modifyGS; simpl.
  eapply nth_error_set_nth_same; eauto.
Qed.

(** ** Strikes *)

(** C3: a successful strike ([hit()] on a visible mole not yet struck)
    returns [true], sets [isHit], and changes the score by exactly [+10]
    for a good bunny and [-20] for a bad one, whatever the tier; the score
    is an unbounded integer. *)
Theorem hit_scores : forall w i m,
  nth_error (moles (gs w)) i = Some m ->
  isVisible m = true -> isHit m = false ->
  snd (hit i w) = Some true /\
  score (gs (fst (hit i w))) = score (gs w) + (if isGoodMole m then 10 else -20) /\
  exists m', nth_error (moles (gs (fst (hit i w)))) i = Some m' /\
             isHit m' = true /\ isGoodMole m' = isGoodMole m.
Proof.
  intros w i m Hm Hv Hh.
  destruct w as [[r p s t gt ms dl ge] aid ts nid rn rp]; simpl in Hm.
  unfold hit, startBashAnimation, onMole, getMole, bind, putMole, modifyGS,
    setTimeout, schedule, ret.
  cbn. rewrite Hm. cbn. rewrite Hv, Hh. cbn.
  rewrite (nth_error_set_nth_same _ _ _ _ Hm). cbn.
  destruct (isGoodMole m) eqn:Hg; cbn;
  (split; [reflexivity | split; [reflexivity |]]);
  eexists; (split; [ do 3 (eapply nth_error_set_nth_same); eauto | simpl; auto]).
Qed.

Lemma hit_scores_witness :
  (nth_error (moles (gs w_bad)) 0 =
     Some (upd_mole newMole true false false None 1 false false 0 None) /\
   isVisible (upd_mole newMole true false false None 1 false false 0 None) = true /\
   isHit (upd_mole newMole true false false None 1 false false 0 None) = false) /\
  (snd (hit 0 w_bad) = Some true /\
   score (gs (fst (hit 0 w_bad))) = score (gs w_bad) +
     (if isGoodMole (upd_mole newMole true false false None 1 false false 0 None)
      then 10 else -20) /\
   exists m', nth_error (moles (gs (fst (hit 0 w_bad)))) 0 = Some m' /\
     isHit m' = true /\
     isGoodMole m' = isGoodMole (upd_mole newMole true false false None 1 false false 0 None)).
Proof.
  split; [split; [reflexivity | split; reflexivity] |].
  apply hit_scores; reflexivity.
Defined.

Example hit_bad_from_zero : score (gs (fst (hit 0 w_bad))) = -20.
Proof. vm_compute. reflexivity. Qed.

(** C5: a strike on a missing mole, a hidden one or one already struck
    returns [Miss] ([false]) and leaves the whole world unchanged: score,
    moles, pending timers and random source. *)
Theorem strike_miss_no_change : forall w key,
  strike_misses w key -> handleKeyPress key w = (w, Some false).
Proof.
  intros w key H. unfold strike_misses in H.
  unfold handleKeyPress, bind at 1, getGS.
  destruct (negb (running (gs w)) || paused (gs w)); [reflexivity |].
  destruct (keyToIndex (toLowerCase key)) as [i|]; [| reflexivity].
  unfold onMole, bind, getMole.
  destruct (nth_error (moles (gs w)) i) as [m|] eqn:Hm; [| reflexivity].
  destruct H as [Hv | Hh].
  - rewrite Hv. reflexivity.
  - destruct (isVisible m && Qltb 0 (animationProgress m)); [| reflexivity].
    unfold hit, onMole, bind, getMole. rewrite Hm, Hh.
    rewrite andb_false_r. reflexivity.
Qed.

Lemma strike_miss_no_change_witness :
  strike_misses (step w_bad (EvKey "a")) "A" /\
  handleKeyPress "A" (step w_bad (EvKey "a")) = (step w_bad (EvKey "a"), Some false).
Proof.
  split; [vm_compute; right; reflexivity |].
  apply strike_miss_no_change. vm_compute. right. reflexivity.
Defined.

(** ** Pause *)

(** C9 (amended): in [part_000], [pause()] toggles [paused] when the
    session is running and is exactly [start()] otherwise; in
    [whackabunny.js], [pause()] only toggles [paused], running or not. *)
Theorem pause_spec : forall w,
  pause w = (if running (gs w)
             then (set_gs (with_paused (negb (paused (gs w))) (gs w)) w, Some tt)
             else start w) /\
  Wab.pause w = (set_gs (with_paused (negb (paused (gs w))) (gs w)) w, Some tt).
Proof.
  intro w. split; [| reflexivity].
  unfold pause, bind at 1, getGS.
  destruct (running (gs w)); reflexivity.
Qed.

(** C9 fails in [whackabunny.js]: from the idle state [pause()] leaves
    the session stopped (and paused), while [start()] starts it. *)
Lemma pause_not_start_wab :
  running (gs (fst (Wab.pause (init rnd0)))) = false /\
  paused (gs (fst (Wab.pause (init rnd0)))) = true /\
  running (gs (fst (Wab.start (init rnd0)))) = true /\
  Wab.pause (init rnd0) <> Wab.start (init rnd0).
Proof.
  split; [reflexivity | split; [reflexivity | split; [vm_compute; reflexivity |]]].
  intro H. apply (f_equal (fun p => running (gs (fst p)))) in H.
  vm_compute in H. discriminate.
Qed.

(** ** Show guard *)

(** C10: in [part_000], [show()] on a mole that is visible or still
    animating changes nothing: no kind drawn, [isHit] and
    [animationProgress] kept, no timer scheduled, no random number read. *)
Theorem show_in_flight_noop : forall w i m,
  nth_error (moles (gs w)) i = Some m ->
  isVisible m = true \/ isAnimating m = true ->
  show i w = (w, Some tt).
Proof.
  intros w i m Hm H.
  unfold show, bind at 1, getGS.
  destruct (negb (running (gs w)) || paused (gs w)); [reflexivity |].
  unfold onMole, bind, getMole. rewrite Hm.
  destruct H as [H | H]; rewrite H; [| rewrite orb_true_r]; reflexivity.
Qed.

Lemma show_in_flight_noop_witness :
  (nth_error (moles (gs w_bad)) 0 =
     Some (upd_mole newMole true false false None 1 false false 0 None) /\
   (isVisible (upd_mole newMole true false false None 1 false false 0 None) = true \/
    isAnimating (upd_mole newMole true false false None 1 false false 0 None) = true)) /\
  show 0 w_bad = (w_bad, Some tt).
Proof.
  split; [split; [reflexivity | left; reflexivity] |].
  apply (show_in_flight_noop w_bad 0 (upd_mole newMole true false false None 1 false false 0 None));
    [reflexivity | left; reflexivity].
Defined.

(** ** Preservation of an invariant through the monad *)

Section Pres.
Variable I : World -> Prop.

Lemma pres_ret {A} (a : A) : pres I (ret a).
Proof. intros w H; exact H. Qed.

Lemma pres_throw {A} : pres I (@throw A).
Proof. intros w H; exact H. Qed.

Lemma pres_bind {A B} (m : M A) (k : A -> M B) :
  pres I m -> (forall a, pres I (k a)) -> pres I (bind m k).
Proof.
  intros Hm Hk w Hw. unfold bind. specialize (Hm w Hw).
  destruct (m w) as [w' [a|]]; simpl in *; auto. apply Hk; exact Hm.
Qed.

(** The continuation only runs on results satisfying [P]. *)
Lemma pres_bind_post {A B} (m : M A) (P : A -> Prop) (k : A -> M B) :
  pres I m ->
  (forall w, match snd (m w) with Some a => P a | None => True end) ->
  (forall a, P a -> pres I (k a)) -> pres I (bind m k).
Proof.
  intros Hm HP Hk w Hw. unfold bind. specialize (Hm w Hw). specialize (HP w).
  destruct (m w) as [w' [a|]]; simpl in *; auto. apply Hk; assumption.
Qed.

Lemma pres_bind_ret {A B} (a : A) (k : A -> M B) :
  pres I (k a) -> pres I (bind (ret a) k).
Proof. intros H w Hw. apply H, Hw. Qed.

Lemma pres_bind_throw {A B} (k : A -> M B) : pres I (bind throw k).
Proof. intros w Hw. exact Hw. Qed.

Lemma pres_loop_from (f : nat -> M unit) :
  (forall i, pres I (f i)) -> forall n i, pres I (loop_from i n f).
Proof.
  intros Hf n. induction n as [|n IH]; intro i; simpl.
  - apply pres_ret.
  - apply pres_bind; auto.
Qed.

Lemma pres_forEachMole (f : nat -> M unit) :
  (forall i, pres I (f i)) -> pres I (forEachMole f).
Proof.
  intro Hf. unfold forEachMole. apply pres_bind.
  - intros w Hw; exact Hw.
  - intro g. apply pres_loop_from, Hf.
Qed.

End Pres.

(** ** Primitives and the progress invariant *)

Lemma pres_same_moles {A} (m : M A) :
  (forall w, moles (gs (fst (m w))) = moles (gs w)) -> pres progress_ok m.
Proof. intros H w Hw. unfold progress_ok. rewrite H. exact Hw. Qed.

Lemma pres_getGS : pres progress_ok getGS.
Proof. apply pres_same_moles; reflexivity. Qed.
Lemma pres_get : pres progress_ok get.
Proof. apply pres_same_moles; reflexivity. Qed.
Lemma pres_random : pres progress_ok random.
Proof. apply pres_same_moles; reflexivity. Qed.
Lemma pres_setTimeout cb d : pres progress_ok (setTimeout cb d).
Proof. apply pres_same_moles; reflexivity. Qed.
Lemma pres_setInterval cb d : pres progress_ok (setInterval cb d).
Proof. apply pres_same_moles; reflexivity. Qed.
Lemma pres_requestAnimationFrame cb : pres progress_ok (requestAnimationFrame cb).
Proof. apply pres_same_moles; reflexivity. Qed.
Lemma pres_clearHandle t : pres progress_ok (clearHandle t).
Proof. apply pres_same_moles; intro w; destruct t; reflexivity. Qed.
Lemma pres_getMole i : pres progress_ok (getMole i).
Proof. apply pres_same_moles; reflexivity. Qed.
Lemma pres_setAnimationId a : pres progress_ok (setAnimationId a).
Proof. apply pres_same_moles; reflexivity. Qed.

Lemma pres_modifyGS f :
  (forall g, moles (f g) = moles g) -> pres progress_ok (modifyGS f).
Proof. intro H. apply pres_same_moles; intro w. apply H. Qed.

Lemma pres_putMole i m : mole_ok m -> pres progress_ok (putMole i m).
Proof.
  intros Hm w Hw. unfold progress_ok, putMole, modifyGS; simpl.
  apply Forall_set_nth; assumption.
Qed.

Lemma pres_onMole {A} i (d : A) k :
  (forall m, mole_ok m -> pres progress_ok (k m)) -> pres progress_ok (onMole i d k).
Proof.
  intros Hk w Hw. unfold onMole, bind, getMole.
  destruct (nth_error (moles (gs w)) i) as [m|] eqn:E; [| exact Hw].
  apply Hk; [| exact Hw].
  unfold progress_ok in Hw. rewrite Forall_forall in Hw.
  apply Hw. eapply nth_error_In; eauto.
Qed.

Lemma js_index_In {A} (l : list A) n x : js_index l n = Some x -> In x l.
Proof.
  unfold js_index. destruct (n <? 0); [discriminate |]. apply nth_error_In.
Qed.

Lemma table_speed_ok : forall n, speed_ok (js_index difficultySettings n).
Proof.
  intros n p Hp. apply js_index_In in Hp.
  simpl in Hp. repeat destruct Hp as [<- | Hp]; simpl; try lra.
Qed.

Lemma pres_getDifficultySettings : pres progress_ok getDifficultySettings.
Proof. apply pres_same_moles; reflexivity. Qed.

Lemma post_getDifficultySettings : forall w,
  match snd (getDifficultySettings w) with Some a => speed_ok a | None => True end.
Proof. intro w. simpl. apply table_speed_ok. Qed.

Create HintDb pres_db.
#[local] Hint Resolve pres_ret pres_throw pres_getGS pres_get pres_random
  pres_setTimeout pres_setInterval pres_requestAnimationFrame pres_clearHandle
  pres_getMole pres_setAnimationId pres_getDifficultySettings : pres_db.

Ltac pres_go :=
  repeat (cbv beta zeta;
    first
    [ solve [eauto with pres_db]
    | match goal with
      | |- pres _ (bind getDifficultySettings _) =>
          eapply pres_bind_post;
            [solve [eauto with pres_db] | apply post_getDifficultySettings
            | intros ?d ?Hd]
      | |- pres _ (bind (need ?d) _) =>
          destruct d; simpl need; [apply pres_bind_ret | apply pres_bind_throw]
      | |- pres _ (bind _ _) => apply pres_bind; [| intros ?]
      | |- pres _ (if ?b then _ else _) => destruct b eqn:?
      | |- pres _ (match ?o with _ => _ end) => destruct o eqn:?
      | |- pres _ (onMole _ _ _) =>
          first [apply pres_onMole; intros ?m ?Hm | unfold onMole]
      | |- pres _ (putMole _ _) => apply pres_putMole; unfold mole_ok in *; simpl
      | |- pres _ (modifyGS _) => apply pres_modifyGS; reflexivity
      | |- pres _ (forEachMole _) => apply pres_forEachMole; intros ?i
      end ]).

Lemma Qle_bool_false : forall x y, Qle_bool x y = false -> (y < x)%Q.
Proof.
  intros x y H. apply Qnot_le_lt. intro Hle.
  apply Qle_bool_iff in Hle. congruence.
Qed.

Ltac progress_arith :=
  repeat match goal with
  | H : speed_ok (Some ?p) |- _ => specialize (H p eq_refl)
  | H : Qle_bool _ _ = false |- _ => apply Qle_bool_false in H
  end; lra.

Lemma pres_show i : pres progress_ok (show i).
Proof. unfold show. pres_go; progress_arith. Qed.

Lemma pres_hide i : pres progress_ok (hide i).
Proof. unfold hide. pres_go; progress_arith. Qed.

Lemma pres_update i : pres progress_ok (update i).
Proof. unfold update. pres_go; progress_arith. Qed.

Lemma pres_startBashAnimation i : pres progress_ok (startBashAnimation i).
Proof. unfold startBashAnimation. pres_go; progress_arith. Qed.

Lemma pres_bashFrame2 i : pres progress_ok (bashFrame2 i).
Proof. unfold bashFrame2. pres_go; progress_arith. Qed.

Lemma pres_bashEnd i : pres progress_ok (bashEnd i).
Proof. unfold bashEnd. pres_go; progress_arith. Qed.

Lemma pres_hit i : pres progress_ok (hit i).
Proof. unfold hit. pres_go; try apply pres_startBashAnimation; progress_arith. Qed.

Lemma pres_clearGameTimer : pres progress_ok clearGameTimer.
Proof. unfold clearGameTimer. pres_go. Qed.

#[local] Hint Resolve pres_show pres_hide pres_update pres_startBashAnimation
  pres_bashFrame2 pres_bashEnd pres_hit pres_clearGameTimer : pres_db.

Lemma pres_gameLoop : pres progress_ok gameLoop.
Proof. unfold gameLoop. pres_go. Qed.

Lemma pres_gameOver : pres progress_ok gameOver.
Proof.
  unfold gameOver, clearMole. pres_go; lra.
Qed.

#[local] Hint Resolve pres_gameLoop pres_gameOver : pres_db.

Lemma pres_clockTick : pres progress_ok clockTick.
Proof. unfold clockTick. pres_go. Qed.

Lemma pres_start : pres progress_ok start.
Proof.
  unfold start, clearMole. pres_go; lra.
Qed.

Lemma pres_pause : pres progress_ok pause.
Proof. unfold pause. pres_go. apply pres_start. Qed.

Lemma pres_reset : pres progress_ok reset.
Proof.
  unfold reset, clearMole. pres_go; lra.
Qed.

Lemma pres_handleKeyPress k : pres progress_ok (handleKeyPress k).
Proof. unfold handleKeyPress. pres_go. Qed.

#[local] Hint Resolve pres_clockTick pres_start pres_pause pres_reset
  pres_handleKeyPress : pres_db.

Lemma pres_runCallback cb : pres progress_ok (runCallback cb).
Proof. destruct cb; simpl; eauto with pres_db. Qed.

Lemma pres_fire id : pres progress_ok (fire id).
Proof.
  intros w Hw. unfold fire.
  destruct (find_timer id (timers w)) as [t|]; [| exact Hw].
  apply pres_runCallback.
  destruct (trepeat t); exact Hw.
Qed.

Lemma step_progress_ok : forall w e, progress_ok w -> progress_ok (step w e).
Proof.
  intros w e Hw. unfold step. destruct e; simpl.
  - apply pres_start, Hw.
  - apply pres_pause, Hw.
  - apply pres_reset, Hw.
  - apply pres_bind; [apply pres_handleKeyPress | intro; apply pres_ret | exact Hw].
  - apply pres_fire, Hw.
Qed.

Lemma run_progress_ok : forall es w, progress_ok w -> progress_ok (run w es).
Proof.
  induction es as [|e es IH]; intros w Hw; simpl; auto.
  apply IH, step_progress_ok, Hw.
Qed.

(** C4: along every sequence of events from the initial state (start,
    pause, reset, key strikes, and the firing, in any order, of any pending
    show/hide/strike/bash timer, clock tick or animation frame), every
    mole's [animationProgress] stays in [[0,1]]: [update()] adds or
    subtracts the current [animationSpeed] and clamps at [1] (showing) or
    [0] (hiding), and [show()]/[start()] reset it to [0]. *)
Theorem progress_in_unit_interval : forall r es, progress_ok (run (init r) es).
Proof.
  intros r es. apply run_progress_ok.
  repeat constructor; simpl; lra.
Qed.

(** ** The session clock *)

Lemma pres_clock_frame {A} id n (m : M A) :
  (forall w, clock_view (fst (m w)) = clock_view w) -> pres (clock_on id n) m.
Proof.
  intros H w Hw. specialize (H w). unfold clock_view in H.
  inversion H as [[H1 H2 H3 H4 H5 H6]].
  unfold clock_on in *. rewrite H1, H2, H3, H4, H5, H6. exact Hw.
Qed.

Lemma pres_clock_schedule id n cb d r : pres (clock_on id n) (schedule cb d r).
Proof.
  intros w (H1 & H2 & H3 & H4 & H5 & H6). unfold clock_on; simpl.
  repeat split; auto.
  replace (Nat.eqb (nextId w) id) with false by (symmetry; apply Nat.eqb_neq; lia).
  exact H5.
Qed.

Lemma pres_clock_getGS id n : pres (clock_on id n) getGS.
Proof. apply pres_clock_frame; reflexivity. Qed.
Lemma pres_clock_random id n : pres (clock_on id n) random.
Proof. apply pres_clock_frame; reflexivity. Qed.
Lemma pres_clock_getMole id n i : pres (clock_on id n) (getMole i).
Proof. apply pres_clock_frame; reflexivity. Qed.
Lemma pres_clock_putMole id n i m : pres (clock_on id n) (putMole i m).
Proof. apply pres_clock_frame; reflexivity. Qed.
Lemma pres_clock_setAnimationId id n a : pres (clock_on id n) (setAnimationId a).
Proof. apply pres_clock_frame; reflexivity. Qed.
Lemma pres_clock_getDifficultySettings id n : pres (clock_on id n) getDifficultySettings.
Proof. apply pres_clock_frame; reflexivity. Qed.
Lemma pres_clock_setTimeout id n cb d : pres (clock_on id n) (setTimeout cb d).
Proof. apply pres_clock_schedule. Qed.
Lemma pres_clock_requestAnimationFrame id n cb :
  pres (clock_on id n) (requestAnimationFrame cb).
Proof. apply pres_clock_schedule. Qed.

#[local] Hint Resolve pres_clock_getGS pres_clock_random pres_clock_getMole
  pres_clock_putMole pres_clock_setAnimationId pres_clock_getDifficultySettings
  pres_clock_setTimeout pres_clock_requestAnimationFrame : pres_db.

Lemma pres_clock_gameLoop id n : pres (clock_on id n) gameLoop.
Proof. unfold gameLoop, update. pres_go. Qed.

(** The last part of [start()], once the clock is registered. *)
Lemma pres_clock_start_tail id n :
  pres (clock_on id n)
    (forEachMole (fun i => randomDelay <- random ;;
                           setTimeout (CbShow i) (randomDelay * 3000) ;;; ret tt) ;;;
     gameLoop).
Proof. pres_go. apply pres_clock_gameLoop. Qed.

Lemma loop_from_clearMole_ok F : forall n i w, snd (loop_from i n (clearMole F) w) = Some tt.
Proof.
  induction n as [|n IH]; intros i w; [reflexivity |].
  simpl. unfold bind at 1, clearMole, onMole, bind, getMole.
  destruct (nth_error (moles (gs w)) i) as [m|];
  [destruct (visibilityTimer m); destruct (bashTimer m) |]; apply IH.
Qed.

Lemma forEachMole_clearMole_ok F w : snd (forEachMole (clearMole F) w) = Some tt.
Proof. apply loop_from_clearMole_ok. Qed.

Lemma clearGameTimer_ok w : snd (clearGameTimer w) = Some tt.
Proof. unfold clearGameTimer, bind, getGS. destruct (gameTimer (gs w)); reflexivity. Qed.

Lemma bind_some {A B} (m : M A) (k : A -> M B) w a :
  snd (m w) = Some a -> bind m k w = k a (fst (m w)).
Proof. unfold bind. destruct (m w) as [w' o]; simpl; intros ->; reflexivity. Qed.

(** A [start()] that is not refused registers the clock and leaves the
    session running, not paused, with [60] seconds. *)
Lemma start_clock_on : forall w,
  running (gs w) && negb (paused (gs w)) = false ->
  exists id, clock_on id 60 (fst (start w)).
Proof.
  intros w H.
  unfold start. unfold bind at 1, getGS. cbv beta. rewrite H.
  rewrite (bind_some _ _ _ _ (clearGameTimer_ok w)).
  set (w1 := fst (clearGameTimer w)).
  rewrite (bind_some _ _ _ _ (forEachMole_clearMole_ok _ w1)).
  set (w2 := fst (forEachMole _ w1)).
  exists (nextId w2).
  apply pres_clock_start_tail.
  unfold clock_on; simpl. repeat split; auto.
  rewrite Nat.eqb_refl. reflexivity.
Qed.

(** One tick of a running session with more than one second left. *)
Lemma tick_running : forall id n w, clock_on id n w -> 1 < n ->
  clock_on id (n - 1) (tickClock w) /\
  tickClock w = set_gs (with_timeLeft (n - 1) (gs w)) w.
Proof.
  intros id n w Hc Hn. destruct Hc as (H1 & H2 & H3 & H4 & H5 & H6).
  assert (E : tickClock w = set_gs (with_timeLeft (n - 1) (gs w)) w).
  { unfold tickClock. rewrite H4. unfold step, handler, fire. rewrite H5.
    simpl. unfold clockTick, bind, getGS, modifyGS. simpl.
    rewrite H2. simpl. rewrite H3.
    replace (n - 1 <=? 0) with false by (symmetry; apply Z.leb_gt; lia).
    reflexivity. }
  split; [| exact E].
  rewrite E. unfold clock_on; simpl. repeat split; auto.
Qed.

Lemma end_frame {A} (m : M A) :
  (forall w, (running (gs (fst (m w))), gameEnded (gs (fst (m w))),
              timeLeft (gs (fst (m w))), gameTimer (gs (fst (m w)))) =
             (running (gs w), gameEnded (gs w), timeLeft (gs w), gameTimer (gs w))) ->
  pres end_state m.
Proof.
  intros H w Hw. specialize (H w). inversion H as [[H1 H2 H3 H4]].
  unfold end_state in *. rewrite H1, H2, H3, H4. exact Hw.
Qed.

Lemma pres_end_getMole i : pres end_state (getMole i).
Proof. apply end_frame; reflexivity. Qed.
Lemma pres_end_putMole i m : pres end_state (putMole i m).
Proof. apply end_frame; reflexivity. Qed.
Lemma pres_end_clearHandle t : pres end_state (clearHandle t).
Proof. apply end_frame; intro w; destruct t; reflexivity. Qed.
Lemma pres_end_getGS : pres end_state getGS.
Proof. apply end_frame; reflexivity. Qed.

#[local] Hint Resolve pres_end_getMole pres_end_putMole pres_end_clearHandle
  pres_end_getGS : pres_db.

Lemma gameOver_end : forall w, timeLeft (gs w) = 0 -> end_state (fst (gameOver w)).
Proof.
  intros w H. unfold gameOver.
  rewrite bind_some with (a := tt) by reflexivity.
  rewrite bind_some with (a := tt) by apply clearGameTimer_ok.
  apply pres_forEachMole.
  - intro i. unfold clearMole. pres_go.
  - unfold clearGameTimer, bind, getGS, end_state. simpl.
    destruct (gameTimer (gs w)); simpl; auto.
Qed.

(** The tick that brings the clock to [0] ends the session. *)
Lemma tick_last : forall id w, clock_on id 1 w -> end_state (tickClock w).
Proof.
  intros id w Hc. destruct Hc as (H1 & H2 & H3 & H4 & H5 & H6).
  unfold tickClock. rewrite H4. unfold step, handler, fire. rewrite H5.
  simpl. unfold clockTick. cbn -[gameOver]. rewrite H2. cbn -[gameOver].
  rewrite H3. cbn -[gameOver].
  apply gameOver_end. reflexivity.
Qed.

Lemma tick_ended : forall w, end_state w -> tickClock w = w.
Proof. intros w (_ & _ & _ & H). unfold tickClock. rewrite H. reflexivity. Qed.

Lemma iter_clock : forall id w, clock_on id 60 w ->
  forall k, (k < 60)%nat -> clock_on id (60 - Z.of_nat k) (Nat.iter k tickClock w).
Proof.
  intros id w Hw k. induction k as [|k IH]; intro Hk.
  - simpl. exact Hw.
  - rewrite Nat.iter_succ.
    replace (60 - Z.of_nat (S k)) with (60 - Z.of_nat k - 1) by lia.
    apply tick_running; [apply IH; lia | lia].
Qed.

Lemma iter_ended : forall id w, clock_on id 60 w ->
  forall k, (60 <= k)%nat -> end_state (Nat.iter k tickClock w).
Proof.
  intros id w Hw k Hk. induction Hk as [|k Hk IH].
  - rewrite Nat.iter_succ. eapply tick_last.
    pose proof (iter_clock id w Hw 59 ltac:(lia)) as H59.
    exact H59.
  - rewrite Nat.iter_succ. rewrite tick_ended; auto.
Qed.

(** Claim C6: from a fresh [start()] (the session neither running-and-unpaused
    before), firing the one-second session clock: for each of the first 60
    ticks the session is running and not paused, [timeLeft] is [60 - k] and the
    next tick lowers it by exactly 1; [timeLeft] is never negative; and after
    exactly 60 ticks the session is stopped and ended with [timeLeft = 0] and
    the clock cleared. *)
Theorem session_runs_60_ticks : forall w,
  running (gs w) && negb (paused (gs w)) = false ->
  (forall k, (k < 60)%nat ->
     running (gs (Nat.iter k tickClock (step w EvStart))) = true /\
     paused (gs (Nat.iter k tickClock (step w EvStart))) = false /\
     timeLeft (gs (Nat.iter k tickClock (step w EvStart))) = 60 - Z.of_nat k /\
     timeLeft (gs (Nat.iter (S k) tickClock (step w EvStart))) =
       timeLeft (gs (Nat.iter k tickClock (step w EvStart))) - 1) /\
  (forall k, 0 <= timeLeft (gs (Nat.iter k tickClock (step w EvStart)))) /\
  end_state (Nat.iter 60 tickClock (step w EvStart)).
Proof.
  intros w H.
  destruct (start_clock_on w H) as [id Hid].
  assert (Hs : step w EvStart = fst (start w)) by reflexivity.
  rewrite Hs. clear Hs.
  set (w0 := fst (start w)) in *.
  split; [| split].
  - intros k Hk.
    pose proof (iter_clock id w0 Hid k Hk) as (H1 & H2 & H3 & _).
    repeat split; auto.
    rewrite Nat.iter_succ. rewrite H3.
    destruct (Nat.eq_dec k 59) as [->|Hne].
    + pose proof (tick_last id (Nat.iter 59 tickClock w0)) as Hl.
      destruct Hl as (_ & _ & Ht & _).
      { replace 1 with (60 - Z.of_nat 59) by reflexivity.
        apply iter_clock; [exact Hid | lia]. }
      rewrite Ht. reflexivity.
    + destruct (tick_running id (60 - Z.of_nat k) (Nat.iter k tickClock w0))
        as ((_ & _ & Ht & _) & _);
        [apply iter_clock; [exact Hid | lia] | lia |].
      exact Ht.
  - intro k. destruct (Nat.lt_ge_cases k 60) as [Hk|Hk].
    + pose proof (iter_clock id w0 Hid k Hk) as (_ & _ & H3 & _). rewrite H3. lia.
    + pose proof (iter_ended id w0 Hid k Hk) as (_ & _ & H3 & _). rewrite H3. lia.
  - apply (iter_ended id w0 Hid). lia.
Qed.

Lemma session_runs_60_ticks_witness :
  running (gs (init rnd0)) && negb (paused (gs (init rnd0))) = false /\
  end_state (Nat.iter 60 tickClock (step (init rnd0) EvStart)).
Proof.
  split; [reflexivity |].
  apply (session_runs_60_ticks (init rnd0)). reflexivity.
Defined.

(** ** [reset()] *)

Lemma clearHandle_eq t w :
  clearHandle t w = (set_timers (remove_opt t (timers w)) w, Some tt).
Proof. destruct t; [reflexivity | destruct w; reflexivity]. Qed.

Lemma clearMole_eq F i w m : nth_error (moles (gs w)) i = Some m ->
  clearMole F i w =
  (set_gs (with_moles (set_nth i (F m) (moles (gs w))) (gs w))
     (set_timers (remove_opt (bashTimer m) (remove_opt (visibilityTimer m) (timers w))) w),
   Some tt).
Proof.
  intro E. unfold clearMole, onMole, getMole, bind. rewrite E.
  rewrite !clearHandle_eq. reflexivity.
Qed.

Lemma set_nth_firstn {A} : forall (l : list A) i x y,
  nth_error l i = Some x ->
  firstn (S i) (set_nth i y l) = firstn i l ++ [y] /\
  skipn (S i) (set_nth i y l) = skipn (S i) l /\
  skipn i l = x :: skipn (S i) l.
Proof.
  induction l as [|h t IH]; intros [|i] x y H; simpl in *; try discriminate.
  - inversion H; subst. auto.
  - destruct (IH i x y H) as (H1 & H2 & H3). rewrite H1, H2. auto.
Qed.

Lemma loop_clearMole F : forall n i w,
  (i + n)%nat = List.length (moles (gs w)) ->
  loop_from i n (clearMole F) w =
  ({| gs := with_moles (firstn i (moles (gs w)) ++ map F (skipn i (moles (gs w))))
              (gs w);
      animationId := animationId w;
      timers := clear_handles (skipn i (moles (gs w))) (timers w);
      nextId := nextId w; rnd := rnd w; rndPos := rndPos w |}, Some tt).
Proof.
  induction n as [|n IH]; intros i w Hn.
  - rewrite Nat.add_0_r in Hn. subst i.
    rewrite firstn_all, skipn_all. simpl. rewrite app_nil_r.
    destruct w as [[] a ts ni r rp]. reflexivity.
  - destruct (nth_error (moles (gs w)) i) as [m|] eqn:E;
      [| apply nth_error_None in E; lia].
    cbn [loop_from].
    rewrite (bind_some _ _ w tt) by (rewrite (clearMole_eq F i w m E); reflexivity).
    rewrite (clearMole_eq F i w m E). cbn [fst].
    rewrite IH by (simpl; rewrite length_set_nth; lia).
    destruct (set_nth_firstn (moles (gs w)) i m (F m) E) as (H1 & H2 & H3).
    cbn -[clear_handles firstn skipn set_nth]. rewrite H1, H2, H3.
    rewrite <- app_assoc. reflexivity.
Qed.

Lemma forEachMole_clearMole_eq F w :
  forEachMole (clearMole F) w =
  ({| gs := with_moles (map F (moles (gs w))) (gs w);
      animationId := animationId w;
      timers := clear_handles (moles (gs w)) (timers w);
      nextId := nextId w; rnd := rnd w; rndPos := rndPos w |}, Some tt).
Proof.
  unfold forEachMole. change (bind getGS ?k w) with (k (gs w) w). cbv beta.
  rewrite loop_clearMole by reflexivity. reflexivity.
Qed.

Lemma reset_eq w :
  reset w =
  ({| gs := mkGameState false false 0 60 None (map reset_mole (moles (gs w)))
              (difficultyLevel (gs w)) false;
      animationId := animationId w;
      timers := remove_opt (animationId w)
                  (clear_handles (moles (gs w)) (remove_opt (gameTimer (gs w)) (timers w)));
      nextId := nextId w; rnd := rnd w; rndPos := rndPos w |}, Some tt).
Proof.
  unfold reset.
  rewrite (bind_some _ _ _ tt) by reflexivity.
  rewrite (bind_some _ _ _ tt) by apply clearGameTimer_ok.
  rewrite (bind_some _ _ _ tt) by apply forEachMole_clearMole_ok.
  rewrite forEachMole_clearMole_eq.
  unfold clearGameTimer. destruct (gameTimer (gs w)) as [id|] eqn:E;
    cbn; rewrite E; cbn; rewrite clearHandle_eq; reflexivity.
Qed.

Lemma In_remove_opt t o ts :
  In t (remove_opt o ts) <-> In t ts /\ ~ In (tid t) (opt_list o).
Proof.
  destruct o as [id|]; simpl.
  - unfold remove_timer. rewrite filter_In, negb_true_iff, Nat.eqb_neq.
    intuition.
  - intuition.
Qed.

Lemma In_clear_handles t : forall ms ts,
  In t (clear_handles ms ts) <->
  In t ts /\ ~ In (tid t)
    (flat_map (fun m => opt_list (visibilityTimer m) ++ opt_list (bashTimer m)) ms).
Proof.
  induction ms as [|m ms IH]; intro ts; simpl.
  - intuition.
  - rewrite IH, !In_remove_opt, !in_app_iff. intuition.
Qed.

(** Claim C7 (amended): [reset()] from any state stops the session with
    [score = 0], [timeLeft = 60], [running], [paused] and [gameEnded] false and
    the session clock cleared; every mole is made not visible and not hit,
    with no visibility or bash timer and no bash animation; and a pending
    callback is cancelled exactly when its handle is one the game stores
    (animation frame, session clock, a mole's visibility or bash timer), so
    the untracked next-appearance and strike-delay timeouts stay pending. *)
Theorem reset_postcondition : forall w,
  let w' := fst (reset w) in
  running (gs w') = false /\ paused (gs w') = false /\ score (gs w') = 0 /\
  timeLeft (gs w') = 60 /\ gameEnded (gs w') = false /\ gameTimer (gs w') = None /\
  List.length (moles (gs w')) = List.length (moles (gs w)) /\
  (forall i m, nth_error (moles (gs w)) i = Some m ->
     exists m', nth_error (moles (gs w')) i = Some m' /\
       isVisible m' = false /\ isHit m' = false /\
       visibilityTimer m' = None /\ bashTimer m' = None /\
       isBashAnimating m' = false /\ bashFrame m' = 0%nat /\
       isGoodMole m' = isGoodMole m) /\
  (forall t, In t (timers w') <-> In t (timers w) /\ ~ In (tid t) (stored_handles w)).
Proof.
  intro w. cbv zeta. rewrite reset_eq. cbn [fst gs moles timers running paused
    score timeLeft gameEnded gameTimer].
  do 6 (split; [reflexivity |]).
  split; [apply length_map |]. split.
  - intros i m E. exists (reset_mole m). split.
    + rewrite nth_error_map, E. reflexivity.
    + repeat split.
  - intro t. rewrite In_remove_opt, In_clear_handles, In_remove_opt.
    unfold stored_handles. rewrite !in_app_iff. tauto.
Qed.

(** Claim C7 fails as stated: after [start()] then [reset()] the first
    mole's next-appearance timeout is still pending; and a mole that was
    popping up when [reset()] ran keeps [isAnimating] set, so it is not
    forced to Hidden (the source comments the loop as hiding all moles, but
    [reset_mole] leaves the pop animation in place and the frame loop that
    would finish it is cancelled). *)
Lemma reset_leaves_pending_show :
  find_timer 2 (timers (run (init rnd0) [EvStart; EvReset])) =
    Some (mkTimer 2 (CbShow 0) 0 false) /\
  option_map isAnimating
    (nth_error (moles (gs (run (init rnd0) [EvStart; EvFire 2; EvReset]))) 0) =
    Some true.
Proof. split; vm_compute; reflexivity. Qed.

Lemma level_profile : forall t, t <= 60 ->
  exists p, js_index difficultySettings (levelOf t) = Some p /\
    (minShowTime p < maxShowTime p)%Q /\ (minHideTime p < maxHideTime p)%Q.
Proof.
  intros t Ht. unfold js_index.
  assert (0 <= levelOf t <= 5).
  { unfold levelOf. pose proof (Z.div_pos (60 - t) 10). lia. }
  destruct (levelOf t <? 0) eqn:E; [apply Z.ltb_lt in E; lia |].
  assert (Hc : (Z.to_nat (levelOf t) < 6)%nat) by lia.
  destruct (Z.to_nat (levelOf t)) as [|[|[|[|[|[|k]]]]]]; [ .. | lia ];
    eexists; split; try reflexivity; simpl; split; lra.
Qed.

Lemma show_timers : forall i w m p,
  running (gs w) = true -> paused (gs w) = false ->
  nth_error (moles (gs w)) i = Some m ->
  isVisible m = false -> isAnimating m = false ->
  js_index difficultySettings (levelOf (timeLeft (gs w))) = Some p ->
  timers (fst (show i w)) =
    mkTimer (nextId w) (CbHide i)
      (Qmax (rnd w (S (rndPos w)) * (maxShowTime p - minShowTime p) + minShowTime p) 500)
      false :: timers w.
Proof.
  intros i [[ru pa sc tl gt ms dl ge] a ts ni r rp] m p H1 H2 H3 H4 H5 H6.
  simpl in *. subst. unfold show. cbn.
  rewrite H3, H4, H5. cbn. rewrite H6. cbn. reflexivity.
Qed.

Lemma hide_timers : forall i w m p,
  running (gs w) = true -> paused (gs w) = false ->
  nth_error (moles (gs w)) i = Some m -> isVisible m = true ->
  js_index difficultySettings (levelOf (timeLeft (gs w))) = Some p ->
  timers (fst (hide i w)) =
    mkTimer (nextId w) (CbShow i)
      (Qmax (rnd w (rndPos w) * (maxHideTime p - minHideTime p) + minHideTime p) 500)
      false :: remove_opt (visibilityTimer m) (timers w).
Proof.
  intros i [[ru pa sc tl gt ms dl ge] a ts ni r rp] m p H1 H2 H3 H4 H6.
  simpl in *. subst. unfold hide. cbn.
  rewrite H3, H4. cbn. destruct (visibilityTimer m); cbn; rewrite H6; cbn; reflexivity.
Qed.

Lemma sample_range (r lo hi : Q) :
  (0 <= r < 1)%Q -> (lo < hi)%Q -> (lo <= r * (hi - lo) + lo < hi)%Q.
Proof. intros [H0 H1] H. split; nra. Qed.


(** Claim C8 fails as stated: the first appearances scheduled by [start()]
    are [Math.random() * 3000] ms, not drawn from the profile and with no
    floor (here [0] ms), and a strike schedules [hide()] after a fixed
    400 ms. *)
Lemma delay_without_floor :
  find_timer 2 (timers (step (init rnd0) EvStart)) =
    Some (mkTimer 2 (CbShow 0) 0 false) /\
  find_timer 2 (timers (step w_bad (EvKey "a"))) =
    Some (mkTimer 2 (CbHitHide 0) 400 false).
Proof. split; vm_compute; reflexivity. Qed.

(** ** Presentation and set-up code *)

Lemma inject_Z_le_Q a b : a <= b -> (inject_Z a <= inject_Z b)%Q.
Proof. intro H. rewrite <- Zle_Qle. exact H. Qed.

Lemma animateFlash_fade_in e : 0 <= e < 100 ->
  animateFlash e = Some (inject_Z e / 100 * (1 # 2))%Q.
Proof.
  intros He. unfold animateFlash.
  replace (e <? 100) with true by (symmetry; apply Z.ltb_lt; lia). reflexivity.
Qed.

Lemma animateFlash_fade_out e : 100 <= e < 800 ->
  animateFlash e = Some ((1 # 2) * (1 - inject_Z (e - 100) / 700))%Q.
Proof.
  intros He. unfold animateFlash.
  replace (e <? 100) with false by (symmetry; apply Z.ltb_ge; lia).
  replace (e <? 100 + 700) with true by (symmetry; apply Z.ltb_lt; lia). reflexivity.
Qed.

(** The red flash of a strike on a bad bunny: for a non-negative elapsed
    time its opacity lies in [[0, 0.5]], rises during the first 100 ms,
    falls during the next 700 ms, and the flash ends exactly when 800 ms
    have elapsed. *)
Theorem red_flash_profile : forall e, 0 <= e ->
  (animateFlash e = None <-> 800 <= e) /\
  (forall o, animateFlash e = Some o -> (0 <= o <= 1 # 2)%Q) /\
  (forall e' o o', e <= e' -> animateFlash e = Some o -> animateFlash e' = Some o' ->
     (e' < 100 -> (o <= o')%Q) /\ (100 <= e -> (o' <= o)%Q)).
Proof.
  intros e He.
  assert (Hcase : e < 100 \/ 100 <= e < 800 \/ 800 <= e) by lia.
  split; [| split].
  - destruct Hcase as [H | [H | H]].
    + rewrite animateFlash_fade_in by lia. split; [discriminate | lia].
    + rewrite animateFlash_fade_out by lia. split; [discriminate | lia].
    + unfold animateFlash.
      replace (e <? 100) with false by (symmetry; apply Z.ltb_ge; lia).
      replace (e <? 100 + 700) with false by (symmetry; apply Z.ltb_ge; lia).
      split; auto.
  - intros o Ho. destruct Hcase as [H | [H | H]].
    + rewrite animateFlash_fade_in in Ho by lia. inversion Ho; subst.
      pose proof (inject_Z_le_Q 0 e ltac:(lia)).
      pose proof (inject_Z_le_Q e 100 ltac:(lia)).
      change (inject_Z 0) with 0%Q in *. change (inject_Z 100) with 100%Q in *.
      unfold Qdiv; change (/ 100)%Q with (1 # 100)%Q. split; lra.
    + rewrite animateFlash_fade_out in Ho by lia. inversion Ho; subst.
      pose proof (inject_Z_le_Q 0 (e - 100) ltac:(lia)).
      pose proof (inject_Z_le_Q (e - 100) 700 ltac:(lia)).
      change (inject_Z 0) with 0%Q in *. change (inject_Z 700) with 700%Q in *.
      unfold Qdiv; change (/ 700)%Q with (1 # 700)%Q. split; lra.
    + unfold animateFlash in Ho.
      replace (e <? 100) with false in Ho by (symmetry; apply Z.ltb_ge; lia).
      replace (e <? 100 + 700) with false in Ho by (symmetry; apply Z.ltb_ge; lia).
      discriminate.
  - intros e' o o' Hle Ho Ho'. split.
    + intro H'. rewrite animateFlash_fade_in in Ho, Ho' by lia.
      inversion Ho; inversion Ho'; subst.
      pose proof (inject_Z_le_Q e e' Hle).
      unfold Qdiv; change (/ 100)%Q with (1 # 100)%Q. lra.
    + intro H.
      destruct (Z.lt_ge_cases e 800) as [H8 | H8].
      2:{ unfold animateFlash in Ho.
          replace (e <? 100) with false in Ho by (symmetry; apply Z.ltb_ge; lia).
          replace (e <? 100 + 700) with false in Ho by (symmetry; apply Z.ltb_ge; lia).
          discriminate. }
      destruct (Z.lt_ge_cases e' 800) as [H8' | H8'].
      2:{ unfold animateFlash in Ho'.
          replace (e' <? 100) with false in Ho' by (symmetry; apply Z.ltb_ge; lia).
          replace (e' <? 100 + 700) with false in Ho' by (symmetry; apply Z.ltb_ge; lia).
          discriminate. }
      rewrite animateFlash_fade_out in Ho, Ho' by lia.
      inversion Ho; inversion Ho'; subst.
      pose proof (inject_Z_le_Q (e - 100) (e' - 100) ltac:(lia)).
      unfold Qdiv; change (/ 700)%Q with (1 # 700)%Q. lra.
Qed.

Lemma red_flash_profile_witness :
  0 <= 250 /\ animateFlash 250 <> None /\
  (forall o, animateFlash 250 = Some o -> (0 <= o <= 1 # 2)%Q).
Proof.
  split; [lia |]. split; [discriminate |].
  destruct (red_flash_profile 250 ltac:(lia)) as (_ & H & _). exact H.
Defined.

Lemma inject_Z_sub a b : (inject_Z (a - b) == inject_Z a - inject_Z b)%Q.
Proof. unfold Qeq, Qminus, Qplus, Qopp, inject_Z; simpl. lia. Qed.

(** The music speed-up: with music playing and the session running,
    [updateMusicSpeed()] sets the rate [0.5 + (60 - timeLeft) / 60], which
    stays in [[0.5, 1.5]] while [timeLeft] is in [[0, 60]] and grows by
    exactly [1/60] with each tick of the session clock. *)
Theorem music_speed_per_tick : forall id n w,
  clock_on id n w -> 1 < n <= 60 ->
  exists s s',
    updateMusicSpeed true (gs w) = Some s /\
    updateMusicSpeed true (gs (tickClock w)) = Some s' /\
    (s' == s + (1 # 60))%Q /\ (1 # 2 <= s <= 3 # 2)%Q /\ (1 # 2 <= s' <= 3 # 2)%Q.
Proof.
  intros id n w Hc Hn.
  destruct (tick_running id n w Hc ltac:(lia)) as (_ & Ht).
  destruct Hc as (H1 & _ & H3 & _).
  rewrite Ht. unfold updateMusicSpeed. cbn [gs set_gs with_timeLeft running timeLeft].
  rewrite H1, H3. cbn [negb orb].
  do 2 eexists. split; [reflexivity |]. split; [reflexivity |].
  pose proof (inject_Z_sub 60 n). pose proof (inject_Z_sub 60 (n - 1)).
  pose proof (inject_Z_sub n 1).
  pose proof (inject_Z_le_Q 2 n ltac:(lia)).
  pose proof (inject_Z_le_Q n 60 ltac:(lia)).
  change (inject_Z 60) with 60%Q in *. change (inject_Z 2) with 2%Q in *.
  change (inject_Z 1) with 1%Q in *.
  unfold Qdiv; change (/ 60)%Q with (1 # 60)%Q.
  split; [| split; split]; lra.
Qed.

Lemma start_clock_on_init : clock_on 1 60 (step (init rnd0) EvStart).
Proof. unfold clock_on. vm_compute. repeat split; lia. Qed.

Lemma music_speed_per_tick_witness :
  clock_on 1 60 (step (init rnd0) EvStart) /\
  exists s s',
    updateMusicSpeed true (gs (step (init rnd0) EvStart)) = Some s /\
    updateMusicSpeed true (gs (tickClock (step (init rnd0) EvStart))) = Some s' /\
    (s' == s + (1 # 60))%Q.
Proof.
  split; [exact start_clock_on_init |].
  destruct (music_speed_per_tick 1 60 _ start_clock_on_init ltac:(lia))
    as (s & s' & H1 & H2 & H3 & _).
  exists s, s'. auto.
Defined.

Lemma Qle_bool_max_pos x : (0 < x)%Q -> Qle_bool (Qmax 0 x) 0 = false.
Proof.
  intro Hx. pose proof (Q.max_r 0 x ltac:(lra)) as Hm.
  destruct (Qle_bool (Qmax 0 x) 0) eqn:E; [| reflexivity].
  apply Qle_bool_iff in E. lra.
Qed.

Lemma fade_steps_running v : (0 < v)%Q -> forall k, (k < 20)%nat ->
  let f := Nat.iter k (fadeTick (v / inject_Z (Z.of_nat fadeSteps))) (mkFade 0 v true true) in
  currentStep f = k /\ fadeActive f = true /\ playing f = true /\
  (volume f == v - inject_Z (Z.of_nat k) * (v / 20))%Q.
Proof.
  intros Hv k. induction k as [|k IH]; intro Hk; cbv zeta.
  - change (Nat.iter 0 ?g ?x) with x. cbn [currentStep fadeActive playing volume].
    split; [reflexivity |]. split; [reflexivity |]. split; [reflexivity |].
    change (inject_Z (Z.of_nat 0)) with 0%Q. ring.
  - rewrite Nat.iter_succ.
    destruct (IH ltac:(lia)) as (H1 & H2 & H3 & H4).
    set (f := Nat.iter k _ _) in *.
    assert (Hk' : (inject_Z (Z.of_nat k) <= 18)%Q).
    { change 18%Q with (inject_Z 18). apply inject_Z_le_Q. lia. }
    assert (HS : inject_Z (Z.of_nat (S k)) = (inject_Z (Z.of_nat k) + 1)%Q).
    { rewrite Nat2Z.inj_succ, <- Z.add_1_r. apply inject_Z_plus. }
    pose proof (inject_Z_le_Q 0 (Z.of_nat k) ltac:(lia)) as H0.
    change (inject_Z 0) with 0%Q in H0.
    change (inject_Z (Z.of_nat fadeSteps)) with 20%Q.
    assert (Hpos : (0 < volume f - v / 20)%Q).
    { rewrite H4. unfold Qdiv; change (/ 20)%Q with (1 # 20)%Q.
      assert (0 <= (18 - inject_Z (Z.of_nat k)) * v)%Q
        by (apply Qmult_le_0_compat; lra).
      nra. }
    unfold fadeTick. rewrite H2, H1. cbn [negb].
    replace (fadeSteps <=? S k)%nat with false by (symmetry; apply Nat.leb_gt; unfold fadeSteps; lia).
    rewrite (Qle_bool_max_pos _ Hpos). cbn [orb currentStep fadeActive playing volume].
    repeat split; auto.
    rewrite (Q.max_r 0 (volume f - v / 20)) by lra. rewrite H4, HS. ring.
Qed.

(** The fade-out at the end of a session: from music playing at a positive
    volume [v], the interval fires every 150 ms and keeps the music playing
    with the volume lowered by [v/20] per run ([v - k*v/20] after [k] runs,
    so never negative) for 19 runs; the 20th run pauses the music, resets its
    volume to 0.3 and clears the interval, which never changes anything
    afterwards. *)
Theorem fade_out_twenty_steps : forall v, (0 < v)%Q ->
  let '(stepDuration, volumeStep, f0) := fadeOutMusic v in
  (stepDuration == 150)%Q /\
  (forall k, (k < 20)%nat ->
     fadeActive (Nat.iter k (fadeTick volumeStep) f0) = true /\
     playing (Nat.iter k (fadeTick volumeStep) f0) = true /\
     (volume (Nat.iter k (fadeTick volumeStep) f0) ==
        v - inject_Z (Z.of_nat k) * (v / 20))%Q /\
     (0 < volume (Nat.iter k (fadeTick volumeStep) f0))%Q) /\
  (forall j, Nat.iter (20 + j) (fadeTick volumeStep) f0 = mkFade 20 (3 # 10) false false).
Proof.
  intros v Hv. unfold fadeOutMusic. split; [reflexivity |]. split.
  - intros k Hk. destruct (fade_steps_running v Hv k Hk) as (_ & H2 & H3 & H4).
    repeat split; auto.
    rewrite H4.
    assert (Hk' : (inject_Z (Z.of_nat k) <= 19)%Q).
    { change 19%Q with (inject_Z 19). apply inject_Z_le_Q. lia. }
    pose proof (inject_Z_le_Q 0 (Z.of_nat k) ltac:(lia)) as H0.
    change (inject_Z 0) with 0%Q in H0.
    unfold Qdiv; change (/ 20)%Q with (1 # 20)%Q.
    assert (0 <= (19 - inject_Z (Z.of_nat k)) * v)%Q
      by (apply Qmult_le_0_compat; lra).
    nra.
  - assert (H20 : Nat.iter 20 (fadeTick (v / inject_Z (Z.of_nat fadeSteps)))
                    (mkFade 0 v true true) = mkFade 20 (3 # 10) false false).
    { rewrite Nat.iter_succ.
      destruct (fade_steps_running v Hv 19 ltac:(lia)) as (H1 & H2 & _ & _).
      unfold fadeTick at 1. rewrite H2, H1. reflexivity. }
    induction j as [|j IH].
    + rewrite Nat.add_0_r. exact H20.
    + rewrite Nat.add_succ_r, Nat.iter_succ, IH. reflexivity.
Qed.

Lemma fade_out_twenty_steps_witness :
  (0 < 3 # 10)%Q /\
  Nat.iter 20 (fadeTick (snd (fst (fadeOutMusic (3 # 10))))) (snd (fadeOutMusic (3 # 10))) =
    mkFade 20 (3 # 10) false false.
Proof.
  split; [reflexivity |].
  pose proof (fade_out_twenty_steps (3 # 10) ltac:(reflexivity)) as H.
  destruct H as (_ & _ & H). exact (H 0%nat).
Defined.

Lemma holeXs_inside W : (0 < W)%Q ->
  exists x0 x1 x2, holeXs W = [x0; x1; x2] /\
    (0 < x0 /\ x0 < x1 /\ x1 < x2 /\ x2 < W /\ x1 - x0 == x2 - x1)%Q.
Proof.
  intro HW. unfold holeXs. do 3 eexists. split; [reflexivity |].
  unfold Qdiv; change (/ 8)%Q with (1 # 8)%Q.
  repeat split; lra.
Qed.

(** The canvas layout: the constructor always picks a positive size
    (falling back to 800 x 400), [resize()] retries in 50 ms exactly when the
    container has no positive width or height and otherwise takes its size
    with the holes 50 px above the bottom; in every layout the three holes
    lie strictly inside the canvas width, left to right, equally spaced. *)
Theorem hole_layout :
  (forall rw rh,
     (0 < fst (initialSize rw rh))%Q /\ (0 < snd (initialSize rw rh))%Q /\
     exists x0 x1 x2, holeXs (fst (initialSize rw rh)) = [x0; x1; x2] /\
       (0 < x0 /\ x0 < x1 /\ x1 < x2 /\ x2 < fst (initialSize rw rh) /\
        x1 - x0 == x2 - x1)%Q) /\
  (forall rw rh, resize rw rh = RetryIn 50 <-> (rw <= 0 \/ rh <= 0)%Q) /\
  (forall rw rh W H xs y, resize rw rh = NewLayout W H xs y ->
     W = rw /\ H = rh /\ y = (rh - 50)%Q /\
     exists x0 x1 x2, xs = [x0; x1; x2] /\
       (0 < x0 /\ x0 < x1 /\ x1 < x2 /\ x2 < W /\ x1 - x0 == x2 - x1)%Q).
Proof.
  split; [| split].
  - intros rw rh.
    assert (HW : (0 < fst (initialSize rw rh))%Q).
    { unfold initialSize, Qltb; simpl. destruct (Qle_bool rw 0) eqn:E; simpl.
      - reflexivity.
      - apply Qle_bool_false in E. exact E. }
    split; [exact HW | split; [| apply holeXs_inside; exact HW]].
    unfold initialSize, Qltb; simpl. destruct (Qle_bool rh 0) eqn:E; simpl.
    + reflexivity.
    + apply Qle_bool_false in E. exact E.
  - intros rw rh. unfold resize.
    destruct (Qle_bool rw 0) eqn:E1; [| destruct (Qle_bool rh 0) eqn:E2]; simpl.
    + apply Qle_bool_iff in E1. tauto.
    + apply Qle_bool_iff in E2. tauto.
    + apply Qle_bool_false in E1, E2. split; [discriminate |]. intros [H | H]; lra.
  - intros rw rh W H xs y. unfold resize.
    destruct (Qle_bool rw 0 || Qle_bool rh 0) eqn:E; [discriminate |].
    intro Hr. inversion Hr; subst.
    apply orb_false_iff in E. destruct E as [E1 _]. apply Qle_bool_false in E1.
    repeat split; auto. apply holeXs_inside. exact E1.
Qed.

(** Image loading: [loadImages()] counts every [onload] and every
    [onerror] callback alike; after [n] callbacks the counter is [n] and the
    [loading] flags are cleared exactly when [n] has reached the 8 images,
    so a failed image never blocks the start of drawing, and the flags stay
    cleared. *)
Theorem images_loaded : forall n,
  loadedCount (Nat.iter n checkAllLoaded loader0) = n /\
  imagesLoading (Nat.iter n checkAllLoaded loader0) = negb (totalImages <=? n)%nat.
Proof.
  induction n as [|n [IH1 IH2]]; [split; reflexivity |].
  rewrite Nat.iter_succ. set (l := Nat.iter n checkAllLoaded loader0) in *.
  unfold checkAllLoaded. rewrite IH1.
  destruct (Nat.eqb (S n) totalImages) eqn:E; cbn [loadedCount imagesLoading].
  - apply Nat.eqb_eq in E. unfold totalImages in E. injection E as ->. split; reflexivity.
  - apply Nat.eqb_neq in E. split; [reflexivity |]. rewrite IH2.
    unfold totalImages in *. f_equal.
    destruct (Nat.leb_spec 8 n), (Nat.leb_spec 8 (S n)); auto; lia.
Qed.

(** Which screen [draw()] paints over a session: after a [start()] that is
    not refused, the playfield during the first 60 ticks of the session
    clock, the final-score screen once the 60th tick has ended the session,
    and the playfield again after [reset()] from any state. *)
Theorem draw_screens : forall w,
  running (gs w) && negb (paused (gs w)) = false ->
  (forall k, (k < 60)%nat ->
     drawScreen (gs (Nat.iter k tickClock (step w EvStart))) = PlayField) /\
  drawScreen (gs (Nat.iter 60 tickClock (step w EvStart))) = EndScreen /\
  (forall w', drawScreen (gs (step w' EvReset)) = PlayField).
Proof.
  intros w H.
  destruct (start_clock_on w H) as [id Hid].
  change (step w EvStart) with (fst (start w)).
  split; [| split].
  - intros k Hk. destruct (iter_clock id _ Hid k Hk) as (H1 & _).
    unfold drawScreen. rewrite H1. reflexivity.
  - destruct (iter_ended id _ Hid 60 ltac:(lia)) as (H1 & H2 & _).
    unfold drawScreen. rewrite H1, H2. reflexivity.
  - intro w'. unfold step, handler. rewrite reset_eq. reflexivity.
Qed.

Lemma draw_screens_witness :
  running (gs (init rnd0)) && negb (paused (gs (init rnd0))) = false /\
  drawScreen (gs (Nat.iter 60 tickClock (step (init rnd0) EvStart))) = EndScreen.
Proof.
  split; [reflexivity |].
  destruct (draw_screens (init rnd0) eq_refl) as (_ & H & _). exact H.
Defined.

Lemma lower_ascii_idem c : lower_ascii (lower_ascii c) = lower_ascii c.
Proof.
  destruct c as [b0 b1 b2 b3 b4 b5 b6 b7].
  destruct b0, b1, b2, b3, b4, b5, b6, b7; reflexivity.
Qed.

Lemma toLowerCase_idem s : toLowerCase (toLowerCase s) = toLowerCase s.
Proof. induction s as [|c s IH]; simpl; [reflexivity | rewrite lower_ascii_idem, IH; reflexivity]. Qed.

(** The keyboard: the [keydown] listener ignores the case of the key; a key
    other than a, b or c, or any key while the session is stopped or paused,
    leaves the whole world unchanged; otherwise the listener does exactly
    what [handleKeyPress] does on the lower-cased key. *)
Theorem keydown_filter :
  (forall k w, keydown k w = keydown (toLowerCase k) w) /\
  (forall k w,
     (~ In (toLowerCase k) ["a"; "b"; "c"]%string \/
      negb (running (gs w)) || paused (gs w) = true) ->
     keydown k w = (w, Some tt)) /\
  (forall k w, In (toLowerCase k) ["a"; "b"; "c"]%string ->
     fst (keydown k w) = fst (handleKeyPress (toLowerCase k) w)).
Proof.
  split; [| split].
  - intros k w. unfold keydown. rewrite toLowerCase_idem. reflexivity.
  - intros k w [Hk | Hs]; unfold keydown.
    + destruct (existsb (String.eqb (toLowerCase k)) ["a"; "b"; "c"]%string) eqn:E;
        [| reflexivity].
      exfalso. apply Hk. apply existsb_exists in E. destruct E as (x & Hx & Ex).
      apply String.eqb_eq in Ex. subst. exact Hx.
    + destruct (existsb _ _); [| reflexivity].
      unfold bind at 1, handleKeyPress. unfold bind at 1, getGS. rewrite Hs.
      reflexivity.
  - intros k w Hk. unfold keydown.
    replace (existsb (String.eqb (toLowerCase k)) ["a"; "b"; "c"]%string) with true.
    + unfold bind at 1. destruct (handleKeyPress (toLowerCase k) w) as [w' [b|]]; reflexivity.
    + symmetry. apply existsb_exists. exists (toLowerCase k). split; [exact Hk |].
      apply String.eqb_refl.
Qed.

Lemma keydown_filter_witness :
  ~ In (toLowerCase "Z") ["a"; "b"; "c"]%string /\ keydown "Z" w_bad = (w_bad, Some tt).
Proof.
  assert (Hz : ~ In (toLowerCase "Z") ["a"; "b"; "c"]%string).
  { simpl. intros [H | [H | [H | []]]]; discriminate. }
  split; [exact Hz |].
  destruct keydown_filter as (_ & H & _). apply H. left. exact Hz.
Defined.

Lemma hole_layout_witness :
  (0 <= 0 \/ 0 <= 400)%Q /\ resize 0 400 = RetryIn 50.
Proof.
  split; [left; discriminate |].
  destruct hole_layout as (_ & H & _). apply H. left. discriminate.
Defined.

(** Pausing a running session: [pause()] flips only the [paused] flag,
    pressing it twice gives back exactly the same world, and while the
    session is paused each firing of the session clock leaves the whole
    world unchanged, so [timeLeft] is frozen. *)
Theorem pause_freezes : forall w,
  running (gs w) = true ->
  step w EvPause = set_gs (with_paused (negb (paused (gs w))) (gs w)) w /\
  step (step w EvPause) EvPause = w /\
  (paused (gs w) = true -> forall id t,
     find_timer id (timers w) = Some t -> tcb t = CbClock -> trepeat t = true ->
     step w (EvFire id) = w).
Proof.
  intros w Hr.
  assert (E : forall w', running (gs w') = true ->
            step w' EvPause = set_gs (with_paused (negb (paused (gs w'))) (gs w')) w').
  { intros w' H'. unfold step, handler, pause, bind, getGS. rewrite H'. reflexivity. }
  split; [exact (E w Hr) |]. split.
  - rewrite (E w Hr). rewrite E by exact Hr.
    destruct w as [[ru pa sc tl gt ms dl ge] a ts ni r rp]. simpl.
    rewrite negb_involutive. reflexivity.
  - intros Hp id t Ht Hc Hrep. unfold step, handler, fire. rewrite Ht, Hrep, Hc.
    unfold runCallback, clockTick, bind, getGS. rewrite Hp. reflexivity.
Qed.

Lemma pause_freezes_witness :
  running (gs (step (step (init rnd0) EvStart) EvPause)) = true /\
  paused (gs (step (step (init rnd0) EvStart) EvPause)) = true /\
  find_timer 1 (timers (step (step (init rnd0) EvStart) EvPause)) =
    Some (mkTimer 1 CbClock 1000 true) /\
  step (step (step (init rnd0) EvStart) EvPause) (EvFire 1) =
    step (step (init rnd0) EvStart) EvPause.
Proof.
  assert (H1 : running (gs (step (step (init rnd0) EvStart) EvPause)) = true)
    by (vm_compute; reflexivity).
  assert (H2 : paused (gs (step (step (init rnd0) EvStart) EvPause)) = true)
    by (vm_compute; reflexivity).
  assert (H3 : find_timer 1 (timers (step (step (init rnd0) EvStart) EvPause)) =
                 Some (mkTimer 1 CbClock 1000 true)) by (vm_compute; reflexivity).
  split; [exact H1 |]. split; [exact H2 |]. split; [exact H3 |].
  destruct (pause_freezes _ H1) as (_ & _ & H).
  exact (H H2 1%nat _ H3 eq_refl eq_refl).
Defined.

(** The timeouts [reset()] leaves pending are harmless right after it: a
    pending next-appearance ([show()]) or strike-delay ([hide()]) timeout
    that fires leaves the game state (score, clock, flags and every mole)
    unchanged, because [show()] refuses to run in a stopped session and
    [hide()] refuses a mole that is not visible. *)
Theorem reset_stale_timeouts_harmless : forall w id t i,
  find_timer id (timers (step w EvReset)) = Some t ->
  tcb t = CbShow i \/ tcb t = CbHitHide i ->
  gs (step (step w EvReset) (EvFire id)) = gs (step w EvReset).
Proof.
  intros w id t i Ht Hc.
  set (w' := step w EvReset) in *.
  assert (Hg : gs w' = mkGameState false false 0 60 None (map reset_mole (moles (gs w)))
                        (difficultyLevel (gs w)) false).
  { unfold w', step, handler. rewrite reset_eq. reflexivity. }
  unfold step at 1, handler, fire. rewrite Ht.
  set (w'' := if trepeat t then w' else set_timers (remove_timer id (timers w')) w').
  assert (Hg' : gs w'' = gs w') by (unfold w''; destruct (trepeat t); reflexivity).
  destruct Hc as [Hc | Hc]; rewrite Hc; unfold runCallback.
  - unfold show, bind, getGS. rewrite Hg', Hg. simpl. congruence.
  - unfold hide, onMole, bind, getMole. rewrite Hg', Hg. cbn [moles].
    rewrite nth_error_map.
    destruct (nth_error (moles (gs w)) i); simpl; congruence.
Qed.

Lemma reset_stale_timeouts_harmless_witness :
  find_timer 2 (timers (step (step (init rnd0) EvStart) EvReset)) =
    Some (mkTimer 2 (CbShow 0) 0 false) /\
  gs (step (step (step (init rnd0) EvStart) EvReset) (EvFire 2)) =
    gs (step (step (init rnd0) EvStart) EvReset).
Proof.
  assert (H : find_timer 2 (timers (step (step (init rnd0) EvStart) EvReset)) =
                Some (mkTimer 2 (CbShow 0) 0 false)) by (vm_compute; reflexivity).
  split; [exact H |].
  exact (reset_stale_timeouts_harmless _ 2 _ 0 H (or_introl eq_refl)).
Defined.

(** ** Strikes *)

Lemma set_nth_set_nth {A} : forall (l : list A) i x y,
  set_nth i x (set_nth i y l) = set_nth i x l.
Proof. induction l as [|h t IH]; intros [|i] x y; simpl; f_equal; auto. Qed.

Lemma hit_eq : forall w i m,
  nth_error (moles (gs w)) i = Some m -> isVisible m = true -> isHit m = false ->
  hit i w =
  ({| gs := with_score (score (gs w) + (if isGoodMole m then 10 else -20))
              (with_moles (set_nth i (set_bash true 1 (Some (nextId w)) (set_isHit true m))
                             (moles (gs w))) (gs w));
      animationId := animationId w;
      timers := mkTimer (S (nextId w)) (CbHitHide i) 400 false
                :: mkTimer (nextId w) (CbBash2 i) 100 false :: timers w;
      nextId := S (S (nextId w)); rnd := rnd w; rndPos := rndPos w |}, Some true).
Proof.
  intros w i m Hm Hv Hh.
  destruct w as [[r p s t gt ms dl ge] aid ts nid rn rp]; simpl in Hm.
  unfold hit, startBashAnimation, onMole, getMole, bind, putMole, modifyGS,
    setTimeout, schedule, ret.
  cbn. rewrite Hm. cbn. rewrite Hv, Hh. cbn.
  rewrite (nth_error_set_nth_same _ _ _ _ Hm). cbn.
  rewrite !set_nth_set_nth.
  destruct (isGoodMole m); reflexivity.
Qed.

Lemma hit_refused : forall w i m,
  nth_error (moles (gs w)) i = Some m -> isHit m = true -> hit i w = (w, Some false).
Proof.
  intros w i m Hm Hh. unfold hit, onMole, bind, getMole. rewrite Hm, Hh.
  rewrite andb_false_r. reflexivity.
Qed.

Lemma Qltb_pos p : (0 < p)%Q -> Qltb 0 p = true.
Proof.
  intro H. unfold Qltb. destruct (Qle_bool p 0) eqn:E; [| reflexivity].
  apply Qle_bool_iff in E. lra.
Qed.

Lemma handleKeyPress_hit : forall w key i m,
  running (gs w) = true -> paused (gs w) = false ->
  keyToIndex (toLowerCase key) = Some i ->
  nth_error (moles (gs w)) i = Some m ->
  isVisible m = true -> (0 < animationProgress m)%Q ->
  handleKeyPress key w = hit i w.
Proof.
  intros w key i m H1 H2 Hk Hm Hv Hp.
  unfold handleKeyPress, bind at 1, getGS. rewrite H1, H2, Hk. cbn [negb orb].
  unfold onMole, bind, getMole. rewrite Hm, Hv, (Qltb_pos _ Hp). reflexivity.
Qed.

(** A double press does not score twice: when a key press strikes a
    visible, popped-up bunny that was not struck yet, it is a hit; pressing
    the same key again right after is a miss that leaves the whole world
    (score, moles, timers) unchanged. *)
Theorem strike_once : forall w key i m,
  running (gs w) = true -> paused (gs w) = false ->
  keyToIndex (toLowerCase key) = Some i ->
  nth_error (moles (gs w)) i = Some m ->
  isVisible m = true -> isHit m = false -> (0 < animationProgress m)%Q ->
  snd (handleKeyPress key w) = Some true /\
  handleKeyPress key (fst (handleKeyPress key w)) = (fst (handleKeyPress key w), Some false).
Proof.
  intros w key i m H1 H2 Hk Hm Hv Hh Hp.
  rewrite (handleKeyPress_hit w key i m H1 H2 Hk Hm Hv Hp).
  rewrite (hit_eq w i m Hm Hv Hh). split; [reflexivity |]. cbn [fst].
  assert (Hm' : nth_error (moles (gs w)) i = Some m) by exact Hm.
  set (m' := set_bash true 1 (Some (nextId w)) (set_isHit true m)).
  assert (Hn : nth_error (set_nth i m' (moles (gs w))) i = Some m')
    by (eapply nth_error_set_nth_same; eauto).
  erewrite handleKeyPress_hit; cbn [gs moles with_score with_moles running paused];
    eauto.
  - eapply hit_refused; [exact Hn | reflexivity].
Qed.

Lemma strike_once_witness :
  running (gs w_bad) = true /\ paused (gs w_bad) = false /\
  handleKeyPress "A" (fst (handleKeyPress "A" w_bad)) =
    (fst (handleKeyPress "A" w_bad), Some false).
Proof.
  split; [reflexivity |]. split; [reflexivity |].
  refine (proj2 (strike_once w_bad "A" 0
    (upd_mole newMole true false false None 1 false false 0 None)
    eq_refl eq_refl eq_refl eq_refl eq_refl eq_refl _)).
  reflexivity.
Defined.

Lemma remove_timer_fresh n ts :
  Forall (fun t => (tid t < n)%nat) ts -> remove_timer n ts = ts.
Proof.
  induction 1 as [|t ts Ht _ IH]; [reflexivity |].
  unfold remove_timer in *. simpl.
  replace (Nat.eqb (tid t) n) with false by (symmetry; apply Nat.eqb_neq; lia).
  simpl. f_equal. exact IH.
Qed.

Lemma Forall_tid_S n ts :
  Forall (fun t => (tid t < n)%nat) ts -> Forall (fun t => (tid t < S (S n))%nat) ts.
Proof. apply Forall_impl. intros t Ht. lia. Qed.

Lemma Nat_eqb_S_l n : Nat.eqb (S n) n = false.
Proof. apply Nat.eqb_neq. lia. Qed.

Lemma Nat_eqb_S_r n : Nat.eqb n (S n) = false.
Proof. apply Nat.eqb_neq. lia. Qed.

(** The strike animation: a hit shows bash frame 1 with a 100 ms timer
    registered next to the 400 ms strike-delay timeout; firing that timer
    shows frame 2 with a 350 ms timer; firing this one ends the animation
    (frame 0, no bash timer) while the mole stays struck, the score is not
    touched again, and only the strike-delay timeout is left besides the
    timers that were already pending. *)
Theorem bash_sequence : forall w i m,
  nth_error (moles (gs w)) i = Some m -> isVisible m = true -> isHit m = false ->
  Forall (fun t => (tid t < nextId w)%nat) (timers w) ->
  let n := nextId w in
  let w1 := fst (hit i w) in
  let w2 := step w1 (EvFire n) in
  let w3 := step w2 (EvFire (S (S n))) in
  (exists m1, nth_error (moles (gs w1)) i = Some m1 /\ isBashAnimating m1 = true /\
     bashFrame m1 = 1%nat /\ bashTimer m1 = Some n) /\
  (exists m2, nth_error (moles (gs w2)) i = Some m2 /\ isBashAnimating m2 = true /\
     bashFrame m2 = 2%nat /\ bashTimer m2 = Some (S (S n))) /\
  (exists m3, nth_error (moles (gs w3)) i = Some m3 /\ isBashAnimating m3 = false /\
     bashFrame m3 = 0%nat /\ bashTimer m3 = None /\ isHit m3 = true) /\
  timers w1 = mkTimer (S n) (CbHitHide i) 400 false :: mkTimer n (CbBash2 i) 100 false
                :: timers w /\
  timers w2 = mkTimer (S (S n)) (CbBashEnd i) 350 false
                :: mkTimer (S n) (CbHitHide i) 400 false :: timers w /\
  timers w3 = mkTimer (S n) (CbHitHide i) 400 false :: timers w /\
  score (gs w3) = score (gs w1).
Proof.
  intros w i m Hm Hv Hh Hf. cbv zeta.
  rewrite (hit_eq w i m Hm Hv Hh). cbn [fst].
  destruct w as [[r p s t gt ms dl ge] aid ts nid rn rp]; simpl in Hm, Hf |- *.
  set (m1 := set_bash true 1 (Some nid) (set_isHit true m)).
  assert (H1 : nth_error (set_nth i m1 ms) i = Some m1)
    by (eapply nth_error_set_nth_same; eauto).
  set (m2 := set_bash (isBashAnimating m1) 2 (Some (S (S nid))) m1).
  assert (H2 : nth_error (set_nth i m2 ms) i = Some m2)
    by (eapply nth_error_set_nth_same; eauto).
  match goal with |- context [step ?x (EvFire nid)] => set (W1 := x) end.
  assert (E2 : step W1 (EvFire nid) =
    {| gs := with_moles (set_nth i m2 ms) (gs W1); animationId := aid;
       timers := mkTimer (S (S nid)) (CbBashEnd i) 350 false
                 :: mkTimer (S nid) (CbHitHide i) 400 false :: ts;
       nextId := S (S (S nid)); rnd := rn; rndPos := rp |}).
  { unfold step, handler, fire. subst W1. cbn [timers find_timer tid].
    rewrite Nat_eqb_S_l, Nat.eqb_refl. cbn [trepeat tcb].
    unfold remove_timer. cbn [filter tid]. rewrite Nat_eqb_S_l, Nat.eqb_refl.
    cbn [negb]. fold (remove_timer nid ts). rewrite (remove_timer_fresh _ _ Hf).
    unfold runCallback, bashFrame2, onMole, bind, getMole, putMole, modifyGS,
      setTimeout, schedule, ret.
    cbn. rewrite H1. cbn. rewrite !set_nth_set_nth. reflexivity. }
  rewrite E2. clear E2.
  match goal with |- context [step ?x (EvFire (S (S nid)))] => set (W2 := x) end.
  assert (E3 : step W2 (EvFire (S (S nid))) =
    {| gs := with_moles (set_nth i (set_bash false 0 None m2) ms) (gs W1);
       animationId := aid;
       timers := mkTimer (S nid) (CbHitHide i) 400 false :: ts;
       nextId := S (S (S nid)); rnd := rn; rndPos := rp |}).
  { unfold step, handler, fire. subst W2. cbn [timers find_timer tid].
    rewrite Nat.eqb_refl. cbn [trepeat tcb].
    unfold remove_timer. cbn [filter tid]. rewrite Nat.eqb_refl, Nat_eqb_S_r.
    cbn [negb]. fold (remove_timer (S (S nid)) ts).
    rewrite (remove_timer_fresh _ _ (Forall_tid_S _ _ Hf)).
    unfold runCallback, bashEnd, onMole, bind, getMole, putMole, modifyGS, ret.
    cbn. rewrite H2. cbn. rewrite set_nth_set_nth. reflexivity. }
  rewrite E3. clear E3. subst W2 W1. cbn [gs moles timers score with_moles with_score].
  split; [exists m1; repeat split; exact H1 |].
  split; [exists m2; repeat split; exact H2 |].
  split; [| repeat split].
  eexists. split; [eapply nth_error_set_nth_same; eauto |]. repeat split.
Qed.

Lemma bash_sequence_witness :
  Forall (fun t => (tid t < nextId w_bad)%nat) (timers w_bad) /\
  timers (step (step (fst (hit 0 w_bad)) (EvFire 1)) (EvFire 3)) =
    mkTimer 2 (CbHitHide 0) 400 false :: timers w_bad.
Proof.
  assert (Hf : Forall (fun t => (tid t < nextId w_bad)%nat) (timers w_bad)) by constructor.
  split; [exact Hf |].
  destruct (bash_sequence w_bad 0
              (upd_mole newMole true false false None 1 false false 0 None)
              eq_refl eq_refl eq_refl Hf) as (_ & _ & _ & _ & _ & H & _).
  exact H.
Defined.

(** ** Pop animation *)

Lemma table_speed_min : forall l p,
  js_index difficultySettings l = Some p -> (1 # 40 <= animationSpeed p)%Q.
Proof.
  intros l p Hp. apply js_index_In in Hp.
  simpl in Hp. repeat destruct Hp as [<- | Hp]; simpl; try lra.
Qed.

Lemma set_nth_same_id {A} : forall (l : list A) i x,
  nth_error l i = Some x -> set_nth i x l = l.
Proof.
  induction l as [|h t IH]; intros [|i] x H; simpl in *; try discriminate.
  - congruence.
  - f_equal. eauto.
Qed.

Lemma update_eq : forall w i p,
  js_index difficultySettings (levelOf (timeLeft (gs w))) = Some p ->
  snd (update i w) = Some tt /\
  timeLeft (gs (fst (update i w))) = timeLeft (gs w) /\
  moles (gs (fst (update i w))) =
    match nth_error (moles (gs w)) i with
    | Some m => set_nth i (advance (animationSpeed p) m) (moles (gs w))
    | None => moles (gs w)
    end.
Proof.
  intros w i p Hp.
  destruct (nth_error (moles (gs w)) i) as [m|] eqn:Hm;
    [| unfold update, onMole, bind, getMole; rewrite Hm; auto].
  destruct (isAnimating m) eqn:Ha.
  - destruct w as [[r pa s t gt ms dl ge] aid ts nid rn rp]; simpl in Hm, Hp |- *.
    unfold update, onMole, bind, getMole. cbn. rewrite Hm, Ha.
    unfold getDifficultySettings, bind, getGS, modifyGS. cbn. rewrite Hp. cbn.
    unfold advance. rewrite Ha.
    destruct (isVisible m);
      [destruct (Qle_bool 1 (animationProgress m + animationSpeed p)) |
       destruct (Qle_bool (animationProgress m - animationSpeed p) 0)];
      cbn; auto.
  - unfold update, onMole, bind, getMole. rewrite Hm, Ha. cbn.
    unfold advance. rewrite Ha, (set_nth_same_id _ _ _ Hm). auto.
Qed.

Lemma loop_update : forall n i w p,
  (i + n)%nat = List.length (moles (gs w)) ->
  js_index difficultySettings (levelOf (timeLeft (gs w))) = Some p ->
  snd (loop_from i n update w) = Some tt /\
  timeLeft (gs (fst (loop_from i n update w))) = timeLeft (gs w) /\
  moles (gs (fst (loop_from i n update w))) =
    firstn i (moles (gs w)) ++ map (advance (animationSpeed p)) (skipn i (moles (gs w))).
Proof.
  induction n as [|n IH]; intros i w p Hn Hp.
  - rewrite Nat.add_0_r in Hn. subst i.
    rewrite firstn_all, skipn_all. simpl. rewrite app_nil_r. auto.
  - destruct (nth_error (moles (gs w)) i) as [m|] eqn:E;
      [| apply nth_error_None in E; lia].
    destruct (update_eq w i p Hp) as (U1 & U2 & U3). rewrite E in U3.
    cbn [loop_from]. rewrite (bind_some _ _ w tt U1).
    assert (Hn' : (S i + n)%nat = List.length (moles (gs (fst (update i w))))).
    { rewrite U3, length_set_nth. lia. }
    assert (Hp' : js_index difficultySettings
                    (levelOf (timeLeft (gs (fst (update i w))))) = Some p).
    { rewrite U2. exact Hp. }
    destruct (IH (S i) _ p Hn' Hp') as (L1 & L2 & L3).
    split; [exact L1 |]. split; [congruence |].
    rewrite L3, U3.
    destruct (set_nth_firstn (moles (gs w)) i m (advance (animationSpeed p) m) E)
      as (H1 & H2 & H3).
    rewrite H1, H2, H3. simpl. rewrite <- app_assoc. reflexivity.
Qed.

Lemma gameLoop_moles : forall w p,
  js_index difficultySettings (levelOf (timeLeft (gs w))) = Some p ->
  timeLeft (gs (fst (gameLoop w))) = timeLeft (gs w) /\
  moles (gs (fst (gameLoop w))) = map (advance (animationSpeed p)) (moles (gs w)).
Proof.
  intros w p Hp. unfold gameLoop.
  assert (Hf : forEachMole update w = loop_from 0 (List.length (moles (gs w))) update w)
    by reflexivity.
  destruct (loop_update (List.length (moles (gs w))) 0 w p eq_refl Hp) as (L1 & L2 & L3).
  rewrite <- Hf in L1, L2, L3. rewrite (bind_some _ _ w tt L1).
  set (w1 := fst (forEachMole update w)) in *. cbn in L3.
  unfold bind, getGS. cbn.
  destruct (running (gs w1)); cbn; split; auto.
Qed.

Lemma frames_moles : forall n w p,
  js_index difficultySettings (levelOf (timeLeft (gs w))) = Some p ->
  timeLeft (gs (frames n w)) = timeLeft (gs w) /\
  moles (gs (frames n w)) = map (Nat.iter n (advance (animationSpeed p))) (moles (gs w)).
Proof.
  induction n as [|n IH]; intros w p Hp.
  - simpl. rewrite map_id. auto.
  - unfold frames. rewrite !Nat.iter_succ. fold (frames n w).
    destruct (IH w p Hp) as (F1 & F2).
    rewrite <- F1 in Hp. destruct (gameLoop_moles (frames n w) p Hp) as (G1 & G2).
    split; [congruence |]. rewrite G2, F2, map_map. reflexivity.
Qed.

Lemma inject_Z_S : forall k : nat,
  (inject_Z (Z.of_nat (S k)) == inject_Z (Z.of_nat k) + 1)%Q.
Proof. intro k. unfold Qeq; simpl. lia. Qed.

Lemma advance_pop : forall s m, (1 # 40 <= s)%Q ->
  isVisible m = true -> isAnimating m = true -> (0 <= animationProgress m)%Q ->
  forall k,
    Nat.iter k (advance s) m = set_isAnimating false (set_animationProgress 1 m) \/
    exists q, Nat.iter k (advance s) m = set_animationProgress q m /\
      (inject_Z (Z.of_nat k) * (1 # 40) <= q)%Q /\ (k = O \/ q < 1)%Q.
Proof.
  intros s m Hs Hv Ha H0. induction k as [|k [IH | (q & IH & Hq & Hq1)]].
  - right. exists (animationProgress m). split; [destruct m; reflexivity |].
    split; [cbn [Z.of_nat]; unfold inject_Z; lra | auto].
  - left. rewrite Nat.iter_succ, IH. unfold advance. simpl. reflexivity.
  - rewrite Nat.iter_succ, IH. unfold advance. cbn [set_animationProgress upd_mole
      isAnimating isVisible animationProgress]. rewrite Ha, Hv.
    pose proof (inject_Z_S k).
    destruct (Qle_bool 1 (q + s)) eqn:E.
    + left. destruct m; reflexivity.
    + right. exists (q + s)%Q. split; [destruct m; reflexivity |].
      apply Bool.not_true_iff_false in E. rewrite Qle_bool_iff in E.
      split; [| right; lra]. nra.
Qed.

Lemma advance_sink : forall s m, (1 # 40 <= s)%Q ->
  isVisible m = false -> isAnimating m = true -> (animationProgress m <= 1)%Q ->
  forall k,
    Nat.iter k (advance s) m = set_isAnimating false (set_animationProgress 0 m) \/
    exists q, Nat.iter k (advance s) m = set_animationProgress q m /\
      (q <= 1 - inject_Z (Z.of_nat k) * (1 # 40))%Q /\ (k = O \/ 0 < q)%Q.
Proof.
  intros s m Hs Hv Ha H0. induction k as [|k [IH | (q & IH & Hq & Hq1)]].
  - right. exists (animationProgress m). split; [destruct m; reflexivity |].
    split; [cbn [Z.of_nat]; unfold inject_Z; lra | auto].
  - left. rewrite Nat.iter_succ, IH. unfold advance. simpl. reflexivity.
  - rewrite Nat.iter_succ, IH. unfold advance. cbn [set_animationProgress upd_mole
      isAnimating isVisible animationProgress]. rewrite Ha, Hv.
    pose proof (inject_Z_S k).
    destruct (Qle_bool (q - s) 0) eqn:E.
    + left. destruct m; reflexivity.
    + right. exists (q - s)%Q. split; [destruct m; reflexivity |].
      apply Bool.not_true_iff_false in E. rewrite Qle_bool_iff in E.
      split; [| right; lra]. nra.
Qed.

(** A mole that is popping up ([isVisible], [isAnimating], progress at
    least [0]) is fully up after any [40] or more consecutive game-loop
    frames: progress [1], no longer animating, every other field as it
    was.  A mole that is sinking (not [isVisible], progress at most [1])
    is likewise fully down, progress [0], after [40] frames.  Every
    [animationSpeed] of the table is at least [1/40]. *)
Theorem animation_settles_in_40_frames : forall w i m,
  timeLeft (gs w) <= 60 ->
  nth_error (moles (gs w)) i = Some m -> isAnimating m = true ->
  forall n, (40 <= n)%nat ->
  (isVisible m = true -> (0 <= animationProgress m)%Q ->
     nth_error (moles (gs (frames n w))) i =
       Some (set_isAnimating false (set_animationProgress 1 m))) /\
  (isVisible m = false -> (animationProgress m <= 1)%Q ->
     nth_error (moles (gs (frames n w))) i =
       Some (set_isAnimating false (set_animationProgress 0 m))).
Proof.
  intros w i m Ht Hm Ha n Hn.
  destruct (level_profile _ Ht) as (p & Hp & _).
  destruct (frames_moles n w p Hp) as (_ & F).
  pose proof (table_speed_min _ _ Hp) as Hs.
  assert (Hn' : (40 <= inject_Z (Z.of_nat n))%Q).
  { change 40%Q with (inject_Z 40). apply inject_Z_le_Q. lia. }
  rewrite F, nth_error_map, Hm. cbn [option_map].
  split; intros Hv H0.
  - destruct (advance_pop _ m Hs Hv Ha H0 n) as [E | (q & E & Hq & [Hk | Hq1])];
      [rewrite E; reflexivity | lia | exfalso; nra].
  - destruct (advance_sink _ m Hs Hv Ha H0 n) as [E | (q & E & Hq & [Hk | Hq1])];
      [rewrite E; reflexivity | lia | exfalso; nra].
Qed.

Lemma animation_settles_in_40_frames_witness :
  nth_error (moles (gs (frames 40 (run (init rnd0) [EvStart; EvFire 2])))) 0 =
  Some (set_isAnimating false (set_animationProgress 1 popped_mole0)).
Proof.
  apply (animation_settles_in_40_frames (run (init rnd0) [EvStart; EvFire 2]) 0);
    [vm_compute; discriminate | vm_compute; reflexivity | reflexivity | lia |
     reflexivity | cbn; lra].
Defined.

(** ** The animation-frame chain *)

Lemma set_gs_set_gs : forall g g' w, set_gs g' (set_gs g w) = set_gs g' w.
Proof. intros g g' []. reflexivity. Qed.

Lemma update_gs_only : forall i w,
  exists g, fst (update i w) = set_gs g w /\ running g = running (gs w).
Proof.
  intros i w.
  destruct (nth_error (moles (gs w)) i) as [m|] eqn:Hm;
    [| exists (gs w); unfold update, onMole, bind, getMole; rewrite Hm;
       destruct w; auto].
  destruct (isAnimating m) eqn:Ha;
    [| exists (gs w); unfold update, onMole, bind, getMole; rewrite Hm, Ha;
       destruct w; auto].
  destruct w as [[r pa s t gt ms dl ge] aid ts nid rn rp]; simpl in Hm |- *.
  unfold update, onMole, bind, getMole. cbn. rewrite Hm, Ha.
  unfold getDifficultySettings, bind, getGS, modifyGS. cbn.
  destruct (js_index difficultySettings (levelOf t)) as [p|]; cbn;
    [| eexists; split; reflexivity].
  destruct (isVisible m);
    [destruct (Qle_bool 1 (animationProgress m + animationSpeed p)) |
     destruct (Qle_bool (animationProgress m - animationSpeed p) 0)];
    cbn; eexists; split; reflexivity.
Qed.

Lemma loop_update_gs_only : forall n i w,
  exists g, fst (loop_from i n update w) = set_gs g w /\ running g = running (gs w).
Proof.
  induction n as [|n IH]; intros i w.
  - exists (gs w). destruct w; auto.
  - cbn [loop_from]. unfold bind.
    destruct (update_gs_only i w) as (g1 & E1 & R1).
    destruct (update i w) as [w1 [[]|]] eqn:E; cbn in E1 |- *.
    + destruct (IH (S i) w1) as (g2 & E2 & R2).
      destruct (loop_from (S i) n update w1) as [w2 o]. cbn in E2 |- *.
      exists g2. subst w1 w2. rewrite set_gs_set_gs. split; [reflexivity |].
      rewrite R2. cbn. exact R1.
    + exists g1. auto.
Qed.

Lemma gameLoop_eq : forall w,
  timeLeft (gs w) <= 60 ->
  exists g, running g = running (gs w) /\
    fst (gameLoop w) =
      if running (gs w) then
        {| gs := g; animationId := Some (nextId w);
           timers := mkTimer (nextId w) CbFrame 0 false :: timers w;
           nextId := S (nextId w); rnd := rnd w; rndPos := rndPos w |}
      else set_gs g w.
Proof.
  intros w Ht. unfold gameLoop.
  destruct (level_profile _ Ht) as (p & Hp & _).
  assert (Hf : forEachMole update w = loop_from 0 (List.length (moles (gs w))) update w)
    by reflexivity.
  destruct (loop_update (List.length (moles (gs w))) 0 w p eq_refl Hp) as (L1 & _ & _).
  destruct (loop_update_gs_only (List.length (moles (gs w))) 0 w) as (g & E & R).
  rewrite <- Hf in L1, E. rewrite (bind_some _ _ w tt L1), E.
  exists g. split; [exact R |].
  unfold bind, getGS. cbn. rewrite R.
  destruct (running (gs w)); destruct w; reflexivity.
Qed.

(** Firing a pending animation-frame callback runs [gameLoop()]: while
    the session runs, it consumes that callback and requests exactly one
    new frame, whose id becomes [animationId]; once the session has
    stopped, it consumes the callback and requests none, leaving
    [animationId] and the id counter as they were, so the chain of frames
    ends. *)
Theorem frame_chain : forall w id t,
  timeLeft (gs w) <= 60 ->
  find_timer id (timers w) = Some t -> tcb t = CbFrame -> trepeat t = false ->
  (running (gs w) = true ->
     running (gs (step w (EvFire id))) = true /\
     timers (step w (EvFire id)) =
       mkTimer (nextId w) CbFrame 0 false :: remove_timer id (timers w) /\
     animationId (step w (EvFire id)) = Some (nextId w) /\
     nextId (step w (EvFire id)) = S (nextId w)) /\
  (running (gs w) = false ->
     running (gs (step w (EvFire id))) = false /\
     timers (step w (EvFire id)) = remove_timer id (timers w) /\
     animationId (step w (EvFire id)) = animationId w /\
     nextId (step w (EvFire id)) = nextId w).
Proof.
  intros w id t Ht Hf Hc Hr.
  unfold step, handler, fire. rewrite Hf, Hr, Hc. cbn [runCallback].
  set (w' := set_timers (remove_timer id (timers w)) w).
  assert (Ht' : timeLeft (gs w') <= 60) by exact Ht.
  destruct (gameLoop_eq w' Ht') as (g & R & E). rewrite E.
  subst w'. cbn in R |- *.
  split; intro Hrun; rewrite Hrun in R |- *; cbn; auto.
Qed.

Lemma frame_chain_witness :
  let w := run (init rnd0) [EvStart] in
  timers (step w (EvFire 5)) =
    mkTimer (nextId w) CbFrame 0 false :: remove_timer 5 (timers w).
Proof.
  intro w.
  assert (H1 : timeLeft (gs w) <= 60) by (vm_compute; discriminate).
  assert (H2 : find_timer 5 (timers w) = Some (mkTimer 5 CbFrame 0 false))
    by (vm_compute; reflexivity).
  assert (H3 : running (gs w) = true) by (vm_compute; reflexivity).
  destruct (frame_chain w 5 (mkTimer 5 CbFrame 0 false) H1 H2 eq_refl eq_refl)
    as [H _].
  apply (H H3).
Defined.

(** ** No exception in a reachable state *)

Lemma safe_frame {A} (m : M A) :
  (forall w, timeLeft (gs (fst (m w))) = timeLeft (gs w)) ->
  (forall w, snd (m w) <> None) -> safe clock_ok m.
Proof. intros H1 H2 w Hw. unfold clock_ok in *. rewrite H1. auto. Qed.

Lemma safe_ret {A} (a : A) : safe clock_ok (ret a).
Proof. apply safe_frame; [reflexivity | discriminate]. Qed.
Lemma safe_getGS : safe clock_ok getGS.
Proof. apply safe_frame; [reflexivity | discriminate]. Qed.
Lemma safe_get : safe clock_ok get.
Proof. apply safe_frame; [reflexivity | discriminate]. Qed.
Lemma safe_random : safe clock_ok random.
Proof. apply safe_frame; [reflexivity | discriminate]. Qed.
Lemma safe_schedule cb d r : safe clock_ok (schedule cb d r).
Proof. apply safe_frame; [reflexivity | discriminate]. Qed.
Lemma safe_setTimeout cb d : safe clock_ok (setTimeout cb d).
Proof. apply safe_schedule. Qed.
Lemma safe_setInterval cb d : safe clock_ok (setInterval cb d).
Proof. apply safe_schedule. Qed.
Lemma safe_requestAnimationFrame cb : safe clock_ok (requestAnimationFrame cb).
Proof. apply safe_schedule. Qed.
Lemma safe_clearTimeout id : safe clock_ok (clearTimeout id).
Proof. apply safe_frame; [reflexivity | discriminate]. Qed.
Lemma safe_clearHandle t : safe clock_ok (clearHandle t).
Proof. apply safe_frame; intro w; destruct t; cbn; [reflexivity | reflexivity | discriminate | discriminate]. Qed.
Lemma safe_getMole i : safe clock_ok (getMole i).
Proof. apply safe_frame; [reflexivity | discriminate]. Qed.
Lemma safe_setAnimationId a : safe clock_ok (setAnimationId a).
Proof. apply safe_frame; [reflexivity | discriminate]. Qed.
Lemma safe_putMole i m : safe clock_ok (putMole i m).
Proof. apply safe_frame; [reflexivity | discriminate]. Qed.

Lemma safe_modifyGS f :
  (forall g, timeLeft g <= 60 -> timeLeft (f g) <= 60) -> safe clock_ok (modifyGS f).
Proof. intros H w Hw. split; [apply H, Hw | discriminate]. Qed.

Lemma safe_bind {A B} (m : M A) (k : A -> M B) :
  safe clock_ok m -> (forall a, safe clock_ok (k a)) -> safe clock_ok (bind m k).
Proof.
  intros Hm Hk w Hw. unfold bind. destruct (Hm w Hw) as [H1 H2].
  destruct (m w) as [w' [a|]]; cbn in *; [apply Hk, H1 | congruence].
Qed.

Lemma safe_bind_getDifficultySettings {B} (k : option Profile -> M B) :
  (forall p, safe clock_ok (k (Some p))) -> safe clock_ok (bind getDifficultySettings k).
Proof.
  intros Hk w Hw. destruct (level_profile _ Hw) as (p & Hp & _).
  unfold bind, getDifficultySettings, bind, getGS, modifyGS. cbn. rewrite Hp.
  apply Hk. exact Hw.
Qed.

Lemma safe_onMole {A} i (d : A) k :
  (forall m, safe clock_ok (k m)) -> safe clock_ok (onMole i d k).
Proof.
  intros Hk w Hw. unfold onMole, bind, getMole. cbn.
  destruct (nth_error (moles (gs w)) i); [apply Hk, Hw | split; [exact Hw | discriminate]].
Qed.

Lemma safe_loop_from (f : nat -> M unit) :
  (forall i, safe clock_ok (f i)) -> forall n i, safe clock_ok (loop_from i n f).
Proof.
  intros Hf n. induction n as [|n IH]; intro i; cbn [loop_from].
  - apply safe_ret.
  - apply safe_bind; auto.
Qed.

Lemma safe_forEachMole (f : nat -> M unit) :
  (forall i, safe clock_ok (f i)) -> safe clock_ok (forEachMole f).
Proof.
  intro Hf. unfold forEachMole. apply safe_bind; [apply safe_getGS |].
  intro g. apply safe_loop_from, Hf.
Qed.

Create HintDb safe_db.
#[local] Hint Resolve safe_ret safe_getGS safe_get safe_random safe_setTimeout
  safe_setInterval safe_requestAnimationFrame safe_clearHandle safe_getMole
  safe_setAnimationId safe_putMole safe_clearTimeout : safe_db.

Ltac safe_go :=
  repeat (cbv beta zeta;
    first
    [ solve [eauto with safe_db]
    | match goal with
      | |- safe _ (bind getDifficultySettings _) =>
          apply safe_bind_getDifficultySettings; intros ?p; simpl need
      | |- safe _ (bind (ret _) _) => apply safe_bind; [apply safe_ret | intros ?]
      | |- safe _ (bind _ _) => apply safe_bind; [| intros ?]
      | |- safe _ (if ?b then _ else _) => destruct b eqn:?
      | |- safe _ (match ?o with _ => _ end) => destruct o eqn:?
      | |- safe _ (onMole _ _ _) => apply safe_onMole; intros ?m
      | |- safe _ (modifyGS _) => apply safe_modifyGS; intros ?g ?Hg; cbn; lia
      | |- safe _ (forEachMole _) => apply safe_forEachMole; intros ?i
      end ]).

Lemma safe_show i : safe clock_ok (show i).
Proof. unfold show. safe_go. Qed.
Lemma safe_hide i : safe clock_ok (hide i).
Proof. unfold hide. safe_go. Qed.
Lemma safe_update i : safe clock_ok (update i).
Proof. unfold update. safe_go. Qed.
Lemma safe_startBashAnimation i : safe clock_ok (startBashAnimation i).
Proof. unfold startBashAnimation. safe_go. Qed.
Lemma safe_bashFrame2 i : safe clock_ok (bashFrame2 i).
Proof. unfold bashFrame2. safe_go. Qed.
Lemma safe_bashEnd i : safe clock_ok (bashEnd i).
Proof. unfold bashEnd. safe_go. Qed.

#[local] Hint Resolve safe_startBashAnimation safe_update : safe_db.

Lemma safe_hit i : safe clock_ok (hit i).
Proof. unfold hit. safe_go. Qed.
Lemma safe_clearGameTimer : safe clock_ok clearGameTimer.
Proof. unfold clearGameTimer. safe_go. Qed.

#[local] Hint Resolve safe_hit safe_clearGameTimer : safe_db.

Lemma safe_gameLoop : safe clock_ok gameLoop.
Proof. unfold gameLoop. safe_go. Qed.
Lemma safe_gameOver : safe clock_ok gameOver.
Proof. unfold gameOver, clearMole. safe_go. Qed.

#[local] Hint Resolve safe_gameLoop safe_gameOver : safe_db.

Lemma safe_clockTick : safe clock_ok clockTick.
Proof. unfold clockTick. safe_go. Qed.
Lemma safe_start : safe clock_ok start.
Proof. unfold start, clearMole. safe_go. Qed.

#[local] Hint Resolve safe_start : safe_db.

Lemma safe_pause : safe clock_ok pause.
Proof. unfold pause. safe_go. Qed.
Lemma safe_reset : safe clock_ok reset.
Proof. unfold reset, clearMole. safe_go. Qed.
Lemma safe_handleKeyPress k : safe clock_ok (handleKeyPress k).
Proof. unfold handleKeyPress. safe_go. Qed.

#[local] Hint Resolve safe_show safe_hide safe_bashFrame2 safe_bashEnd
  safe_clockTick : safe_db.

Lemma safe_fire id : safe clock_ok (fire id).
Proof.
  intros w Hw. unfold fire.
  destruct (find_timer id (timers w)) as [t|]; [| split; [exact Hw | discriminate]].
  assert (Hcb : safe clock_ok (runCallback (tcb t)))
    by (destruct (tcb t); cbn; eauto with safe_db).
  apply Hcb. destruct (trepeat t); exact Hw.
Qed.

Lemma safe_handler e : safe clock_ok (handler e).
Proof.
  destruct e; cbn [handler].
  - apply safe_start.
  - apply safe_pause.
  - apply safe_reset.
  - apply safe_bind; [apply safe_handleKeyPress | intros; apply safe_ret].
  - apply safe_fire.
Qed.

Lemma run_clock_ok : forall es w, clock_ok w -> clock_ok (run w es).
Proof.
  induction es as [|e es IH]; intros w Hw; cbn; auto.
  apply IH. exact (proj1 (safe_handler e w Hw)).
Qed.

(** From the state after [DOMContentLoaded], along every sequence of
    events, no handler raises an exception: the session clock never
    exceeds [60], so the level [getDifficultySettings()] computes is
    always an index of its table and reading [difficulty.maxShowTime],
    [difficulty.animationSpeed] and the like in [show()], [hide()] and
    [update()] never meets [undefined]. *)
Theorem no_exception_reachable : forall r es e,
  timeLeft (gs (run (init r) es)) <= 60 /\
  snd (handler e (run (init r) es)) = Some tt.
Proof.
  intros r es e.
  assert (H : clock_ok (run (init r) es))
    by (apply run_clock_ok; unfold clock_ok; cbn; lia).
  split; [exact H |].
  destruct (safe_handler e _ H) as [_ H2].
  destruct (snd (handler e (run (init r) es))) as [[]|]; congruence.
Qed.

(** ** Bounds of the session fields *)

Lemma pres_gs_frame {A} (m : M A) :
  (forall w, gs (fst (m w)) = gs w) -> pres (fun w => gs_ok (gs w)) m.
Proof. intros H w Hw. rewrite H. exact Hw. Qed.

Lemma pres_gs_modifyGS f :
  (forall g, gs_ok g -> gs_ok (f g)) -> pres (fun w => gs_ok (gs w)) (modifyGS f).
Proof. intros H w Hw. apply H, Hw. Qed.

Lemma levelOf_range : forall t, t <= 60 -> 0 <= levelOf t <= 5.
Proof. intros t Ht. unfold levelOf. pose proof (Z.div_pos (60 - t) 10). lia. Qed.

Lemma pres_gs_getDifficultySettings : pres (fun w => gs_ok (gs w)) getDifficultySettings.
Proof.
  intros w (H1 & H2 & H3). cbn. pose proof (levelOf_range _ H1).
  unfold gs_ok. cbn. auto.
Qed.

Lemma pres_gs_getGS : pres (fun w => gs_ok (gs w)) getGS.
Proof. apply pres_gs_frame; reflexivity. Qed.
Lemma pres_gs_get : pres (fun w => gs_ok (gs w)) get.
Proof. apply pres_gs_frame; reflexivity. Qed.
Lemma pres_gs_random : pres (fun w => gs_ok (gs w)) random.
Proof. apply pres_gs_frame; reflexivity. Qed.
Lemma pres_gs_schedule cb d r : pres (fun w => gs_ok (gs w)) (schedule cb d r).
Proof. apply pres_gs_frame; reflexivity. Qed.
Lemma pres_gs_setTimeout cb d : pres (fun w => gs_ok (gs w)) (setTimeout cb d).
Proof. apply pres_gs_schedule. Qed.
Lemma pres_gs_setInterval cb d : pres (fun w => gs_ok (gs w)) (setInterval cb d).
Proof. apply pres_gs_schedule. Qed.
Lemma pres_gs_requestAnimationFrame cb :
  pres (fun w => gs_ok (gs w)) (requestAnimationFrame cb).
Proof. apply pres_gs_schedule. Qed.
Lemma pres_gs_clearTimeout id : pres (fun w => gs_ok (gs w)) (clearTimeout id).
Proof. apply pres_gs_frame; reflexivity. Qed.
Lemma pres_gs_clearHandle t : pres (fun w => gs_ok (gs w)) (clearHandle t).
Proof. apply pres_gs_frame; intro w; destruct t; reflexivity. Qed.
Lemma pres_gs_getMole i : pres (fun w => gs_ok (gs w)) (getMole i).
Proof. apply pres_gs_frame; reflexivity. Qed.
Lemma pres_gs_setAnimationId a : pres (fun w => gs_ok (gs w)) (setAnimationId a).
Proof. apply pres_gs_frame; reflexivity. Qed.
Lemma pres_gs_putMole i m : pres (fun w => gs_ok (gs w)) (putMole i m).
Proof. apply pres_gs_modifyGS. intros g Hg. exact Hg. Qed.

Create HintDb gs_db.
#[local] Hint Resolve pres_ret pres_throw pres_gs_getGS pres_gs_get pres_gs_random
  pres_gs_setTimeout pres_gs_setInterval pres_gs_requestAnimationFrame
  pres_gs_clearTimeout pres_gs_clearHandle pres_gs_getMole pres_gs_setAnimationId
  pres_gs_putMole pres_gs_getDifficultySettings : gs_db.

Ltac gs_go :=
  repeat (cbv beta zeta;
    first
    [ solve [eauto with gs_db]
    | match goal with
      | |- pres _ (bind (need ?d) _) =>
          destruct d; simpl need; [apply pres_bind_ret | apply pres_bind_throw]
      | |- pres _ (bind _ _) => apply pres_bind; [| intros ?]
      | |- pres _ (if ?b then _ else _) => destruct b eqn:?
      | |- pres _ (match ?o with _ => _ end) => destruct o eqn:?
      | |- pres _ (onMole _ _ _) => unfold onMole
      | |- pres _ (modifyGS _) =>
          apply pres_gs_modifyGS; intros ?g (?H1 & ?H2 & ?H3);
          unfold gs_ok; cbn -[Z.modulo levelOf];
          Z.to_euclidean_division_equations; lia
      | |- pres _ (forEachMole _) => apply pres_forEachMole; intros ?i
      end ]).

Lemma pres_gs_show i : pres (fun w => gs_ok (gs w)) (show i).
Proof. unfold show. gs_go. Qed.
Lemma pres_gs_hide i : pres (fun w => gs_ok (gs w)) (hide i).
Proof. unfold hide. gs_go. Qed.
Lemma pres_gs_update i : pres (fun w => gs_ok (gs w)) (update i).
Proof. unfold update. gs_go. Qed.
Lemma pres_gs_startBashAnimation i : pres (fun w => gs_ok (gs w)) (startBashAnimation i).
Proof. unfold startBashAnimation. gs_go. Qed.
Lemma pres_gs_bashFrame2 i : pres (fun w => gs_ok (gs w)) (bashFrame2 i).
Proof. unfold bashFrame2. gs_go. Qed.
Lemma pres_gs_bashEnd i : pres (fun w => gs_ok (gs w)) (bashEnd i).
Proof. unfold bashEnd. gs_go. Qed.

#[local] Hint Resolve pres_gs_startBashAnimation pres_gs_update : gs_db.

Lemma pres_gs_hit i : pres (fun w => gs_ok (gs w)) (hit i).
Proof. unfold hit. gs_go. Qed.
Lemma pres_gs_clearGameTimer : pres (fun w => gs_ok (gs w)) clearGameTimer.
Proof. unfold clearGameTimer. gs_go. Qed.

#[local] Hint Resolve pres_gs_hit pres_gs_clearGameTimer : gs_db.

Lemma pres_gs_gameLoop : pres (fun w => gs_ok (gs w)) gameLoop.
Proof. unfold gameLoop. gs_go. Qed.
Lemma pres_gs_gameOver : pres (fun w => gs_ok (gs w)) gameOver.
Proof. unfold gameOver, clearMole. gs_go. Qed.

#[local] Hint Resolve pres_gs_gameLoop pres_gs_gameOver : gs_db.

Lemma pres_gs_clockTick : pres (fun w => gs_ok (gs w)) clockTick.
Proof. unfold clockTick. gs_go. Qed.
Lemma pres_gs_start : pres (fun w => gs_ok (gs w)) start.
Proof. unfold start, clearMole. gs_go. Qed.

#[local] Hint Resolve pres_gs_start : gs_db.

Lemma pres_gs_pause : pres (fun w => gs_ok (gs w)) pause.
Proof. unfold pause. gs_go. Qed.
Lemma pres_gs_reset : pres (fun w => gs_ok (gs w)) reset.
Proof. unfold reset, clearMole. gs_go. Qed.
Lemma pres_gs_handleKeyPress k : pres (fun w => gs_ok (gs w)) (handleKeyPress k).
Proof. unfold handleKeyPress. gs_go. Qed.

#[local] Hint Resolve pres_gs_show pres_gs_hide pres_gs_bashFrame2 pres_gs_bashEnd
  pres_gs_clockTick : gs_db.

Lemma pres_gs_step : forall w e, gs_ok (gs w) -> gs_ok (gs (step w e)).
Proof.
  intros w e Hw. unfold step. destruct e; cbn [handler].
  - apply pres_gs_start, Hw.
  - apply pres_gs_pause, Hw.
  - apply pres_gs_reset, Hw.
  - apply pres_bind; [apply pres_gs_handleKeyPress | intro; apply pres_ret | exact Hw].
  - unfold fire. destruct (find_timer id (timers w)) as [t|]; [| exact Hw].
    assert (Hcb : pres (fun w => gs_ok (gs w)) (runCallback (tcb t)))
      by (destruct (tcb t); cbn; eauto with gs_db).
    apply Hcb. destruct (trepeat t); exact Hw.
Qed.

(** Along every sequence of events from the state after
    [DOMContentLoaded], the session clock stays at most [60], the stored
    [difficultyLevel] stays in [0..5], and the score stays a multiple of
    [10]: it only ever changes by [+10], by [-20], or back to [0]. *)
Theorem session_fields_bounded : forall r es, gs_ok (gs (run (init r) es)).
Proof.
  intros r es. remember (init r) as w0.
  assert (H0 : gs_ok (gs w0)) by (subst; unfold gs_ok; cbn; lia).
  clear Heqw0. revert w0 H0.
  induction es as [|e es IH]; intros w Hw; cbn; auto.
  apply IH, pres_gs_step, Hw.
Qed.

(** ** [hide()] *)

(** [hide()] on a mole that is not visible does nothing.  On a visible
    one it sets it not visible, not struck and animating (the sink
    animation), cancels and forgets its pending [visibilityTimer], leaves
    every other mole alone, and, only while the session runs unpaused,
    schedules the mole's next [show()] after at least [500] ms. *)
Theorem hide_effect : forall w i m,
  timeLeft (gs w) <= 60 -> nth_error (moles (gs w)) i = Some m ->
  (isVisible m = false -> hide i w = (w, Some tt)) /\
  (isVisible m = true ->
     snd (hide i w) = Some tt /\
     nth_error (moles (gs (fst (hide i w)))) i =
       Some (set_visibilityTimer None
               (set_isAnimating true (set_isHit false (set_isVisible false m)))) /\
     (forall j, j <> i ->
        nth_error (moles (gs (fst (hide i w)))) j = nth_error (moles (gs w)) j) /\
     exists d, (500 <= d)%Q /\
       timers (fst (hide i w)) =
         (if running (gs w) && negb (paused (gs w))
          then [mkTimer (nextId w) (CbShow i) d false] else []) ++
         remove_opt (visibilityTimer m) (timers w)).
Proof.
  intros w i m Ht Hm. destruct (level_profile _ Ht) as (p & Hp & _).
  split.
  - intro Hv. unfold hide, onMole, bind, getMole. rewrite Hm, Hv. reflexivity.
  - intro Hv.
    destruct w as [[ru pa sc tl gt ms dl ge] a ts ni r rp]; cbn in Hm, Hp |- *.
    unfold hide. cbn. rewrite Hm, Hv. cbn.
    destruct (visibilityTimer m) as [v|]; destruct ru, pa; cbn; try rewrite Hp; cbn;
      (split; [reflexivity |]);
      (split; [rewrite set_nth_set_nth; eapply nth_error_set_nth_same; eauto |]);
      (split; [intros j Hj; rewrite !nth_error_set_nth_other by auto; reflexivity |]);
      first [ exists 500%Q; split; [lra | reflexivity]
            | eexists; split; [| reflexivity]; apply Q.le_max_r ].
Qed.

Lemma hide_effect_witness :
  nth_error (moles (gs (fst (hide 0 (run (init rnd0) [EvStart; EvFire 2]))))) 0 =
  Some (set_visibilityTimer None
          (set_isAnimating true (set_isHit false (set_isVisible false popped_mole0)))).
Proof.
  assert (Ht : timeLeft (gs (run (init rnd0) [EvStart; EvFire 2])) <= 60)
    by (vm_compute; discriminate).
  assert (Hm : nth_error (moles (gs (run (init rnd0) [EvStart; EvFire 2]))) 0 =
               Some popped_mole0) by (vm_compute; reflexivity).
  destruct (hide_effect _ 0 popped_mole0 Ht Hm) as [_ H].
  exact (proj1 (proj2 (H eq_refl))).
Defined.

(** ** Strikes on a mole that has not started to rise *)

(** While the session runs unpaused, a key for hole [i] whose mole has
    [animationProgress] [0] (as [show()] leaves it, before any frame)
    is a miss that changes nothing, even if the mole is already
    [isVisible]: [handleKeyPress] also requires a progress above [0]. *)
Theorem strike_needs_progress : forall w key i m,
  running (gs w) = true -> paused (gs w) = false ->
  keyToIndex (toLowerCase key) = Some i ->
  nth_error (moles (gs w)) i = Some m -> (animationProgress m <= 0)%Q ->
  handleKeyPress key w = (w, Some false).
Proof.
  intros w key i m H1 H2 Hk Hm Hp.
  unfold handleKeyPress, bind, getGS. cbn. rewrite H1, H2. cbn. rewrite Hk.
  unfold onMole, bind, getMole. cbn. rewrite Hm.
  replace (Qltb 0 (animationProgress m)) with false
    by (unfold Qltb; symmetry; apply negb_false_iff, Qle_bool_iff; exact Hp).
  rewrite andb_false_r. reflexivity.
Qed.

Lemma strike_needs_progress_witness :
  handleKeyPress "a" (run (init rnd0) [EvStart; EvFire 2]) =
  (run (init rnd0) [EvStart; EvFire 2], Some false).
Proof.
  apply (strike_needs_progress _ "a" 0 popped_mole0);
    [vm_compute; reflexivity | vm_compute; reflexivity | reflexivity |
     vm_compute; reflexivity | cbn; lra].
Defined.

(** ** [gameOver()] *)

Lemma gameOver_eq w :
  gameOver w =
  ({| gs := mkGameState false (paused (gs w)) (score (gs w)) (timeLeft (gs w)) None
              (map (fun m => set_bash false 0 None
                      (set_visibilityTimer None (set_isVisible false m))) (moles (gs w)))
              (difficultyLevel (gs w)) true;
      animationId := animationId w;
      timers := clear_handles (moles (gs w)) (remove_opt (gameTimer (gs w)) (timers w));
      nextId := nextId w; rnd := rnd w; rndPos := rndPos w |}, Some tt).
Proof.
  unfold gameOver.
  rewrite (bind_some _ _ _ tt) by reflexivity.
  rewrite (bind_some _ _ _ tt) by apply clearGameTimer_ok.
  rewrite forEachMole_clearMole_eq.
  unfold clearGameTimer. destruct (gameTimer (gs w)) as [id|] eqn:E;
    cbn; rewrite E; reflexivity.
Qed.

(** [gameOver()] stops the session and marks it ended, keeping the score,
    the clock and [paused]; it clears the session clock and every mole's
    stored visibility and bash timers and makes every mole not visible,
    with no bash animation, leaving [isHit], the kind and the pop
    animation fields alone.  It cancels nothing else: the requested
    animation frame and the untracked timeouts stay pending. *)
Theorem gameOver_postcondition : forall w,
  let w' := fst (gameOver w) in
  running (gs w') = false /\ gameEnded (gs w') = true /\ gameTimer (gs w') = None /\
  score (gs w') = score (gs w) /\ timeLeft (gs w') = timeLeft (gs w) /\
  paused (gs w') = paused (gs w) /\ animationId w' = animationId w /\
  (forall i m, nth_error (moles (gs w)) i = Some m ->
     nth_error (moles (gs w')) i =
       Some (set_bash false 0 None (set_visibilityTimer None (set_isVisible false m)))) /\
  (forall t, In t (timers w') <->
     In t (timers w) /\
     ~ In (tid t) (opt_list (gameTimer (gs w)) ++
          flat_map (fun m => opt_list (visibilityTimer m) ++ opt_list (bashTimer m))
            (moles (gs w)))).
Proof.
  intro w. cbv zeta. rewrite gameOver_eq. cbn [fst gs moles timers running paused
    score timeLeft gameEnded gameTimer animationId].
  do 7 (split; [reflexivity |]). split.
  - intros i m E. rewrite nth_error_map, E. reflexivity.
  - intro t. rewrite In_clear_handles, In_remove_opt, in_app_iff. tauto.
Qed.

(** ** [start()] *)

Lemma update_not_animating : forall i w,
  Forall (fun m => isAnimating m = false) (moles (gs w)) -> update i w = (w, Some tt).
Proof.
  intros i w H. unfold update, onMole, bind, getMole. cbn.
  destruct (nth_error (moles (gs w)) i) as [m|] eqn:E; [| reflexivity].
  rewrite Forall_forall in H. rewrite (H m (nth_error_In _ _ E)). reflexivity.
Qed.

Lemma loop_update_idle : forall n i w,
  Forall (fun m => isAnimating m = false) (moles (gs w)) ->
  loop_from i n update w = (w, Some tt).
Proof.
  induction n as [|n IH]; intros i w H; [reflexivity |].
  cbn [loop_from]. rewrite (bind_some _ _ w tt) by (rewrite update_not_animating; auto).
  rewrite update_not_animating by exact H. apply IH, H.
Qed.

Lemma gameLoop_idle : forall w,
  Forall (fun m => isAnimating m = false) (moles (gs w)) ->
  gameLoop w =
    if running (gs w) then
      ({| gs := gs w; animationId := Some (nextId w);
          timers := mkTimer (nextId w) CbFrame 0 false :: timers w;
          nextId := S (nextId w); rnd := rnd w; rndPos := rndPos w |}, Some tt)
    else (w, Some tt).
Proof.
  intros w H. unfold gameLoop.
  assert (Hf : forEachMole update w = (w, Some tt)).
  { unfold forEachMole. change (bind getGS ?k w) with (k (gs w) w). cbv beta.
    apply loop_update_idle, H. }
  rewrite (bind_some _ _ w tt) by (rewrite Hf; reflexivity).
  rewrite Hf. cbn.
  destruct (running (gs w)); reflexivity.
Qed.

Lemma loop_shows : forall k i w,
  loop_from i k (fun i => randomDelay <- random ;;
                          setTimeout (CbShow i) (randomDelay * 3000) ;;; ret tt) w =
  ({| gs := gs w; animationId := animationId w;
      timers := rev (map (fun j => mkTimer (nextId w + j) (CbShow (i + j))
                                     (rnd w (rndPos w + j) * 3000) false) (seq 0 k))
                ++ timers w;
      nextId := nextId w + k; rnd := rnd w; rndPos := rndPos w + k |}, Some tt).
Proof.
  induction k as [|k IH]; intros i w.
  - cbn. rewrite !Nat.add_0_r. destruct w; reflexivity.
  - cbn [loop_from]. unfold bind at 1. unfold bind at 1. cbn. rewrite IH. cbn.
    f_equal. f_equal.
    + rewrite <- seq_shift, map_map, <- app_assoc. cbn.
      rewrite !Nat.add_0_r. f_equal.
      apply f_equal, map_ext. intro j. f_equal; [lia | f_equal; lia | f_equal; f_equal; lia].
    + lia.
    + lia.
Qed.

Lemma start_eq : forall w,
  running (gs w) && negb (paused (gs w)) = false ->
  start w =
  ({| gs := mkGameState true false 0 60 (Some (nextId w))
              (map (fun m => upd_mole m false false (isGoodMole m) None 0 false false 0 None)
                 (moles (gs w))) 0 false;
      animationId := Some (nextId w + S (List.length (moles (gs w))))%nat;
      timers :=
        mkTimer (nextId w + S (List.length (moles (gs w))))%nat CbFrame 0 false ::
        rev (map (fun j => mkTimer (S (nextId w) + j)%nat (CbShow j)
                             (rnd w (rndPos w + j)%nat * 3000) false)
               (seq 0 (List.length (moles (gs w))))) ++
        mkTimer (nextId w) CbClock 1000 true ::
        clear_handles (moles (gs w)) (remove_opt (gameTimer (gs w)) (timers w));
      nextId := S (S (nextId w) + List.length (moles (gs w)));
      rnd := rnd w;
      rndPos := rndPos w + List.length (moles (gs w)) |}, Some tt).
Proof.
  intros w H.
  unfold start. change (bind getGS ?k w) with (k (gs w) w). cbv beta. rewrite H.
  rewrite (bind_some _ _ _ _ (clearGameTimer_ok w)).
  assert (E1 : fst (clearGameTimer w) =
                set_gs (with_gameTimer None (gs w))
                  (set_timers (remove_opt (gameTimer (gs w)) (timers w)) w)).
  { destruct w as [[? ? ? ? gt ? ? ?] ? ? ? ? ?].
    unfold clearGameTimer, bind, getGS. cbn. destruct gt; reflexivity. }
  rewrite E1.
  rewrite (bind_some _ _ _ _ (forEachMole_clearMole_ok _ _)).
  rewrite forEachMole_clearMole_eq. cbn [fst].
  rewrite (bind_some _ _ _ tt) by reflexivity.
  rewrite (bind_some _ _ _ (Some (mkProfile 1000 2750 1750 4500 (25 # 1000))))
    by reflexivity.
  rewrite (bind_some _ _ _ (nextId w)) by reflexivity.
  rewrite (bind_some _ _ _ tt) by reflexivity.
  unfold forEachMole at 1. unfold bind at 1. unfold bind at 1. cbn [getGS fst snd].
  rewrite loop_shows. cbn [fst snd].
  rewrite gameLoop_idle.
  2: { cbn. rewrite Forall_forall. intros m Hm. apply in_map_iff in Hm.
       destruct Hm as (m0 & <- & _). reflexivity. }
  cbn. rewrite !length_map.
  rewrite !Nat.add_succ_r. reflexivity.
Qed.

(** [start()] when it is not refused (the session is stopped, or paused):
    it clears the session clock and every mole's stored visibility and
    bash timers, resets every mole (not visible, not struck, progress [0],
    no animation; the kind kept), restarts the session with score [0],
    [60] seconds, level [0] and [paused] and [gameEnded] false, registers
    a [1000] ms clock interval, one appearance timeout per mole after
    [Math.random() * 3000] ms, and requests one animation frame.  It
    cancels nothing else: the animation frame requested by an earlier
    session and untracked timeouts stay pending. *)
Theorem start_postcondition : forall w,
  running (gs w) && negb (paused (gs w)) = false ->
  let n := nextId w in
  let k := List.length (moles (gs w)) in
  snd (start w) = Some tt /\
  gs (fst (start w)) =
    mkGameState true false 0 60 (Some n)
      (map (fun m => upd_mole m false false (isGoodMole m) None 0 false false 0 None)
         (moles (gs w))) 0 false /\
  animationId (fst (start w)) = Some (n + S k)%nat /\
  timers (fst (start w)) =
    mkTimer (n + S k)%nat CbFrame 0 false ::
    rev (map (fun j => mkTimer (S n + j)%nat (CbShow j) (rnd w (rndPos w + j)%nat * 3000) false)
           (seq 0 k)) ++
    mkTimer n CbClock 1000 true ::
    clear_handles (moles (gs w)) (remove_opt (gameTimer (gs w)) (timers w)).
Proof.
  intros w H n k. rewrite start_eq by exact H. cbn. auto.
Qed.

Lemma start_postcondition_witness :
  animationId (fst (start (run (init rnd0) [EvStart; EvPause]))) = Some 10%nat.
Proof.
  assert (H : running (gs (run (init rnd0) [EvStart; EvPause])) &&
              negb (paused (gs (run (init rnd0) [EvStart; EvPause]))) = false)
    by (vm_compute; reflexivity).
  exact (proj1 (proj2 (proj2 (start_postcondition _ H)))).
Defined.

(** ** [show()] *)

(** [show()] on a mole that is neither visible nor animating, while the
    session runs unpaused: the mole becomes visible, not struck and
    rising from progress [0]; its kind is good exactly when the first
    random draw is below [0.75]; the one new pending callback is its
    [hide()] timeout, whose id the mole stores as [visibilityTimer]; the
    other moles are left alone. *)
Theorem show_effect : forall w i m,
  timeLeft (gs w) <= 60 ->
  running (gs w) = true -> paused (gs w) = false ->
  nth_error (moles (gs w)) i = Some m ->
  isVisible m = false -> isAnimating m = false ->
  snd (show i w) = Some tt /\
  nth_error (moles (gs (fst (show i w)))) i =
    Some (set_visibilityTimer (Some (nextId w))
            (set_isGoodMole (Qltb (rnd w (rndPos w)) (3 # 4))
               (set_animationProgress 0 (set_isAnimating true
                  (set_isHit false (set_isVisible true m)))))) /\
  (forall j, j <> i ->
     nth_error (moles (gs (fst (show i w)))) j = nth_error (moles (gs w)) j) /\
  exists d, timers (fst (show i w)) = mkTimer (nextId w) (CbHide i) d false :: timers w.
Proof.
  intros w i m Ht H1 H2 Hm Hv Ha. destruct (level_profile _ Ht) as (p & Hp & _).
  destruct w as [[ru pa sc tl gt ms dl ge] a ts ni r rp]; cbn in *. subst.
  unfold show. cbn. rewrite Hm, Hv, Ha. cbn. rewrite Hp. cbn.
  split; [reflexivity |].
  split; [rewrite !set_nth_set_nth; eapply nth_error_set_nth_same; eauto |].
  split; [intros j Hj; rewrite !nth_error_set_nth_other by auto; reflexivity |].
  eexists. reflexivity.
Qed.

Lemma show_effect_witness :
  nth_error (moles (gs (fst (show 0 (run (init rnd0) [EvStart]))))) 0 =
    Some (set_visibilityTimer (Some 6%nat)
            (set_isGoodMole true
               (set_animationProgress 0 (set_isAnimating true
                  (set_isHit false (set_isVisible true newMole)))))).
Proof.
  assert (Ht : timeLeft (gs (run (init rnd0) [EvStart])) <= 60)
    by (vm_compute; discriminate).
  assert (Hm : nth_error (moles (gs (run (init rnd0) [EvStart]))) 0 = Some newMole)
    by (vm_compute; reflexivity).
  exact (proj1 (proj2 (show_effect _ 0 newMole Ht eq_refl eq_refl Hm eq_refl eq_refl))).
Defined.

(** ** Claim C8 *)

Lemma In_start_show : forall w j,
  running (gs w) && negb (paused (gs w)) = false ->
  (j < List.length (moles (gs w)))%nat ->
  In (mkTimer (S (nextId w) + j)%nat (CbShow j) (rnd w (rndPos w + j)%nat * 3000) false)
     (timers (fst (start w))).
Proof.
  intros w j H Hj. rewrite start_eq by exact H. cbn [fst timers].
  right. apply in_or_app. left. rewrite <- in_rev.
  apply in_map_iff. exists j. split; [reflexivity |].
  apply in_seq. lia.
Qed.

(** Claim C8 (amended): while the session runs unpaused, [show()] on a
    hidden, idle mole schedules its hide after [max(s, 500)] ms and [hide()]
    on a visible mole schedules its next appearance after [max(s, 500)] ms,
    where [s] is computed once from one random draw [r] as
    [r * (max - min) + min] on the matching fields of the current profile,
    hence lies in [[min, max)] for [r] in [[0, 1)]; the delay is thus never
    below the 500 ms floor.  Every [start()] that is not refused schedules
    the first appearance of each mole [j] after [r * 3000] ms for its own
    draw [r], with no profile and no floor (below 500 ms whenever
    [r < 1/6]); and every strike ([hit()] on a visible mole not struck yet)
    schedules [hide()] after a fixed 400 ms. *)
Theorem scheduled_delay_floor :
  (forall i w m,
    running (gs w) = true -> paused (gs w) = false -> timeLeft (gs w) <= 60 ->
    nth_error (moles (gs w)) i = Some m ->
    (forall n, 0 <= rnd w n < 1)%Q ->
    exists p, js_index difficultySettings (levelOf (timeLeft (gs w))) = Some p /\
    (isVisible m = false -> isAnimating m = false ->
       exists s,
         s = (rnd w (S (rndPos w)) * (maxShowTime p - minShowTime p) + minShowTime p)%Q /\
         (minShowTime p <= s < maxShowTime p)%Q /\ (500 <= Qmax s 500)%Q /\
         timers (fst (show i w)) = mkTimer (nextId w) (CbHide i) (Qmax s 500) false :: timers w) /\
    (isVisible m = true ->
       exists s,
         s = (rnd w (rndPos w) * (maxHideTime p - minHideTime p) + minHideTime p)%Q /\
         (minHideTime p <= s < maxHideTime p)%Q /\ (500 <= Qmax s 500)%Q /\
         timers (fst (hide i w)) =
           mkTimer (nextId w) (CbShow i) (Qmax s 500) false
             :: remove_opt (visibilityTimer m) (timers w))) /\
  (forall w j,
    running (gs w) && negb (paused (gs w)) = false ->
    (forall n, 0 <= rnd w n < 1)%Q ->
    (j < List.length (moles (gs w)))%nat ->
    exists d, d = (rnd w (rndPos w + j)%nat * 3000)%Q /\ (0 <= d < 3000)%Q /\
      ((rnd w (rndPos w + j)%nat < 1 # 6)%Q -> (d < 500)%Q) /\
      In (mkTimer (S (nextId w) + j)%nat (CbShow j) d false) (timers (fst (start w)))) /\
  (forall w i m,
    nth_error (moles (gs w)) i = Some m -> isVisible m = true -> isHit m = false ->
    timers (fst (hit i w)) =
      mkTimer (S (nextId w)) (CbHitHide i) 400 false
        :: mkTimer (nextId w) (CbBash2 i) 100 false :: timers w).
Proof.
  split; [| split].
  - intros i w m H1 H2 H3 H4 Hr.
    destruct (level_profile (timeLeft (gs w)) H3) as (p & Hp & Hs & Hh).
    exists p. split; [exact Hp |]. split.
    + intros Hv Ha. eexists. split; [reflexivity |].
      split; [apply sample_range; auto |]. split; [apply Q.le_max_r |].
      apply show_timers with m; auto.
    + intros Hv. eexists. split; [reflexivity |].
      split; [apply sample_range; auto |]. split; [apply Q.le_max_r |].
      apply hide_timers; auto.
  - intros w j H Hr Hj. eexists. split; [reflexivity |].
    destruct (Hr (rndPos w + j)%nat) as [R0 R1].
    split; [split; lra |]. split; [intro Hs; lra |].
    apply In_start_show; auto.
  - intros w i m Hm Hv Hh. rewrite (hit_eq w i m Hm Hv Hh). reflexivity.
Qed.

Lemma scheduled_delay_floor_witness :
  running (gs w_bad) = true /\ paused (gs w_bad) = false /\
  timeLeft (gs w_bad) <= 60 /\
  (exists p s, js_index difficultySettings (levelOf (timeLeft (gs w_bad))) = Some p /\
    (minHideTime p <= s < maxHideTime p)%Q /\
    timers (fst (hide 0 w_bad)) = mkTimer (nextId w_bad) (CbShow 0) (Qmax s 500) false
                                    :: timers w_bad) /\
  In (mkTimer 2 (CbShow 0) 0 false) (timers (fst (start (init rnd0)))) /\
  timers (fst (hit 0 w_bad)) =
    mkTimer 2 (CbHitHide 0) 400 false :: mkTimer 1 (CbBash2 0) 100 false :: [].
Proof.
  destruct scheduled_delay_floor as (Hsh & Hst & Hhit).
  split; [reflexivity |]. split; [reflexivity |]. split; [vm_compute; discriminate |].
  split.
  - destruct (Hsh 0%nat w_bad
                (upd_mole newMole true false false None 1 false false 0 None)
                eq_refl eq_refl ltac:(vm_compute; discriminate) eq_refl
                ltac:(intro n; split; vm_compute; [discriminate | reflexivity]))
      as (p & Hp & _ & Hh).
    destruct (Hh eq_refl) as (s & _ & Hs & _ & Ht).
    exists p, s. split; [exact Hp |]. split; [exact Hs | exact Ht].
  - split.
    + destruct (Hst (init rnd0) 0%nat eq_refl
                  ltac:(intro n; split; vm_compute; [discriminate | reflexivity])
                  ltac:(vm_compute; lia)) as (d & Hd & _ & _ & Hin).
      assert (E : d = 0%Q) by (rewrite Hd; reflexivity).
      rewrite E in Hin. exact Hin.
    + exact (Hhit w_bad 0%nat (upd_mole newMole true false false None 1 false false 0 None)
               eq_refl eq_refl eq_refl).
Defined.
